(** * Churn-prediction business layer: threshold sweep, ROI and segments

    A shallow embedding of [src/business/cost_matrix.py],
    [src/business/threshold_optimization.py], [src/business/roi_analysis.py]
    and [src/business/segment_strategy.py].

    - Python numbers (the [float]/[int] values held by cost matrices,
      scores, thresholds and money columns) are values of a type [F] with
      the operations of the class [Number].  Two instances are given:
      [float] (IEEE-754 binary64, the arithmetic the program runs on) and
      [Q] (exact rationals, the arithmetic the formulas are written in).
      NaN is outside the model: no definition below special-cases it.
    - Integer arrays (labels, predictions, contingency counts) are over [Z].
    - A Python exception is a value of [exn]; a function that may raise
      returns a [result].
    - A cost matrix is a [dict]: a finite map from key strings to numbers;
      dict objects that are copied and updated in place live in a [heap].
    - A [pandas.DataFrame] of metric records with its default [RangeIndex]
      is the list of its rows.
    - The library calls ([numpy.arange], [sklearn.metrics.confusion_matrix],
      [Series.idxmax], [DataFrame.loc]) are modelled by what they compute
      on the values the program passes to them. *)

From Stdlib Require Import ZArith QArith Qround Lqa Floats Lia Sorted.
From stdpp Require Import gmap strings list fin_maps.

Set Warnings "-inexact-float".
Open Scope Z_scope.

(** ** Exceptions *)

Inductive exn : Type :=
  | ValueError (msg : string)
  | KeyError (key : string)
  | IndexError
  | ZeroDivisionError
  | OverflowError.

Inductive result (A : Type) : Type :=
  | Ok (a : A)
  | Raise (e : exn).
Arguments Ok {A} a.
Arguments Raise {A} e.

#[global] Instance result_ret : MRet result := fun A a => Ok a.
#[global] Instance result_bind : MBind result := fun A B f m =>
  match m with
  | Ok a => f a
  | Raise e => Raise e
  end.

Definition is_ok {A} (r : result A) : bool :=
  match r with Ok _ => true | Raise _ => false end.

(** ** Numbers *)

Class Number (F : Type) : Type := {
  of_int : Z -> F;
  nadd : F -> F -> F;
  nsub : F -> F -> F;
  nmul : F -> F -> F;
  ndiv : F -> F -> F;
  nopp : F -> F;
  nleb : F -> F -> bool;
  nltb : F -> F -> bool;
  neqb : F -> F -> bool;
  (* [math.ceil] to a machine integer; [None] when there is none *)
  nceil : F -> option Z
}.

Declare Scope num_scope.
Delimit Scope num_scope with num.
Infix "+" := nadd : num_scope.
Infix "-" := nsub : num_scope.
Infix "*" := nmul : num_scope.
Infix "/" := ndiv : num_scope.
Notation "- x" := (nopp x) : num_scope.
Infix "<=?" := nleb : num_scope.
Infix "<?" := nltb : num_scope.
Infix "=?" := neqb : num_scope.
(* Python's [x >= y] and [x > y] *)
Notation "x >=? y" := (nleb y x) (at level 70, only parsing) : num_scope.
Notation "x >? y" := (nltb y x) (at level 70, only parsing) : num_scope.

(** The order and monotonicity facts the selection arguments rest on.  They
    hold in exact arithmetic; binary64 has them on NaN-free data as long as
    no sum overflows. *)
Class NumberLaws (F : Type) `{Number F} : Prop := {
  nleb_refl : forall x : F, (x <=? x)%num = true;
  nleb_trans : forall x y z : F,
    (x <=? y)%num = true -> (y <=? z)%num = true -> (x <=? z)%num = true;
  nleb_total : forall x y : F, (x <=? y)%num = false -> (y <=? x)%num = true;
  nltb_nleb : forall x y : F, (x <? y)%num = negb (y <=? x)%num;
  neqb_nleb : forall x y : F, (x =? y)%num = (x <=? y)%num && (y <=? x)%num;
  nadd_mono : forall a b c d : F,
    (a <=? b)%num = true -> (c <=? d)%num = true ->
    (a + c <=? b + d)%num = true;
  nsub_nonneg : forall a b : F,
    (a <=? b)%num = true -> (of_int 0 <=? b - a)%num = true
}.

(** *** Exact rationals *)

#[global] Instance Q_number : Number Q := {
  of_int := inject_Z;
  nadd := Qplus;
  nsub := Qminus;
  nmul := Qmult;
  ndiv := Qdiv;
  nopp := Qopp;
  nleb := Qle_bool;
  nltb := fun x y => negb (Qle_bool y x);
  neqb := Qeq_bool;
  nceil := fun x => Some (Qceiling x)
}.

(** *** IEEE-754 binary64 *)

(** [math.ceil] of a double, read off its sign, mantissa and exponent. *)
Definition float_ceil (x : float) : option Z :=
  match Prim2SF x with
  | S754_zero _ => Some 0%Z
  | S754_finite s m e =>
      let v := if s then Z.neg m else Z.pos m in
      Some (if (0 <=? e)%Z then (v * 2 ^ e)%Z else (- ((- v) / 2 ^ (- e)))%Z)
  | S754_infinity _ | S754_nan => None
  end.

(** [float(i)] for a machine integer [i]. *)
Definition float_of_int (i : Z) : float :=
  if (0 <=? i)%Z then PrimFloat.of_uint63 (Uint63.of_Z i)
  else PrimFloat.opp (PrimFloat.of_uint63 (Uint63.of_Z (- i))).

#[global] Instance float_number : Number float := {
  of_int := float_of_int;
  nadd := PrimFloat.add;
  nsub := PrimFloat.sub;
  nmul := PrimFloat.mul;
  ndiv := PrimFloat.div;
  nopp := PrimFloat.opp;
  nleb := PrimFloat.leb;
  nltb := PrimFloat.ltb;
  neqb := PrimFloat.eqb;
  nceil := float_ceil
}.

(** A decimal literal [n/d] of the source, such as [0.05]: the quotient
    is exact in [Q] and correctly rounded in binary64, where it is the
    double the literal denotes. *)
Definition decimal {F} `{Number F} (n d : Z) : F := (of_int n / of_int d)%num.

(** ** The business layer *)

(** Dict objects by reference.  A reference is an index in the store;
    references owned by a caller or returned by [dict_copy] are
    allocated, and a dangling one reads as the empty dict. *)
Abbreviation heap F := (list (gmap string F)) (only parsing).
Abbreviation ref := nat (only parsing).

Section Business.
Context {F : Type} `{Number F}.

(** *** Dictionaries and the object store *)

(** [d[k]] *)
Definition getitem (d : gmap string F) (k : string) : result F :=
  match d !! k with
  | Some v => Ok v
  | None => Raise (KeyError k)
  end.



Definition deref (h : heap F) (r : ref) : gmap string F := default ∅ (h !! r).

(** [r.copy()]: a new object with the same items *)
Definition dict_copy (h : heap F) (r : ref) : heap F * ref :=
  (h ++ [deref h r], length h).

(** [r[k] = v] *)
Definition dict_setitem (h : heap F) (r : ref) (k : string) (v : F) : heap F :=
  alter (fun d => <[k := v]> d) r h.

(** [r[k]] *)
Definition dict_getitem (h : heap F) (r : ref) (k : string) : result F :=
  getitem (deref h r) k.

(** *** cost_matrix.py *)

Definition get_cost_matrix (clv retention_cost retention_success_rate : F)
  : gmap string F :=
  let tp_net_value := (clv * retention_success_rate - retention_cost)%num in
  let fp_net_value := (- retention_cost)%num in
  let fn_net_value := (- (clv * retention_success_rate))%num in
  let tn_net_value := of_int 0 in
  <["CLV" := clv]> (
  <["RETENTION_COST" := retention_cost]> (
  <["RETENTION_SUCCESS_RATE" := retention_success_rate]> (
  <["TP" := tp_net_value]> (
  <["FP" := fp_net_value]> (
  <["FN" := fn_net_value]> (
  <["TN" := tn_net_value]> ∅)))))).

(** *** sklearn.metrics.confusion_matrix, as the program uses it *)

Fixpoint insert_label (x : Z) (l : list Z) : list Z :=
  match l with
  | [] => [x]
  | y :: l' =>
      if x <? y then x :: l
      else if x =? y then l
      else y :: insert_label x l'
  end.

(** The sorted distinct labels of both arrays ([unique_labels]). *)
Definition unique_labels (y_true y_pred : list Z) : list Z :=
  foldr insert_label [] (y_true ++ y_pred).

Fixpoint count_pairs (a b : Z) (ps : list (Z * Z)) : Z :=
  match ps with
  | [] => 0
  | (t, p) :: ps' =>
      (if (t =? a) && (p =? b) then 1 else 0) + count_pairs a b ps'
  end.

Definition inconsistent_samples : exn :=
  ValueError "Found input variables with inconsistent numbers of samples".

(** Entry [i][j] counts the samples whose true label is the [i]-th label
    and whose predicted label is the [j]-th one; no [labels=] argument
    is passed, so the matrix is as large as the labels that occur.  On
    empty arrays this is the 0 x 0 matrix, which the caller cannot unpack;
    library versions that reject empty arrays themselves raise as well. *)
Definition confusion_matrix (y_true y_pred : list Z) : result (list (list Z)) :=
  if negb (length y_true =? length y_pred)%nat then Raise inconsistent_samples
  else
    let labels := unique_labels y_true y_pred in
    Ok (map (fun a => map (fun b => count_pairs a b (zip y_true y_pred)) labels)
            labels).

Definition ravel (m : list (list Z)) : list Z := concat m.

(** Python words the message as "not enough values" or "too many values";
    the exception is a [ValueError] in both cases. *)
Definition unpack_mismatch : exn :=
  ValueError "wrong number of values to unpack (expected 4)".

(** [tn, fp, fn, tp = values] *)
Definition unpack4 (values : list Z) : result (Z * Z * Z * Z) :=
  match values with
  | [a; b; c; d] => Ok (a, b, c, d)
  | _ => Raise unpack_mismatch
  end.

(** *** threshold_optimization.py *)

Record metrics : Type := {
  Threshold : F;
  Customers_Contacted : Z;
  TP : Z;
  FP : Z;
  FN : Z;
  TN : Z;
  Precision : F;
  Recall : F;
  Retention_Cost : F;
  Revenue_Saved : F;
  Opportunity_Cost : F;
  Net_ROI : F
}.

(** [(y_proba >= threshold).astype(int)] *)
Definition predict (y_proba : list F) (threshold : F) : list Z :=
  map (fun p => if (p >=? threshold)%num then 1 else 0) y_proba.

(** The cost matrix is only read; each entry is looked up where the
    source first reads it. *)
Definition calculate_business_metrics
    (y_true : list Z) (y_proba : list F) (threshold : F)
    (cost_matrix : gmap string F) : result metrics :=
  let y_pred := predict y_proba threshold in
  cm ← confusion_matrix y_true y_pred;
  '(tn, fp, fn, tp) ← unpack4 (ravel cm);
  let customers_contacted := tp + fp in
  retention_cost ← getitem cost_matrix "RETENTION_COST";
  let total_retention_cost := (of_int customers_contacted * retention_cost)%num in
  rate ← getitem cost_matrix "RETENTION_SUCCESS_RATE";
  clv ← getitem cost_matrix "CLV";
  let revenue_saved := (of_int tp * rate * clv)%num in
  let opportunity_cost := (of_int fn * rate * clv)%num in
  let net_roi := (revenue_saved - total_retention_cost)%num in
  let precision :=
    if 0 <? tp + fp then (of_int tp / of_int (tp + fp))%num else of_int 0 in
  let recall :=
    if 0 <? tp + fn then (of_int tp / of_int (tp + fn))%num else of_int 0 in
  Ok {| Threshold := threshold;
        Customers_Contacted := customers_contacted;
        TP := tp; FP := fp; FN := fn; TN := tn;
        Precision := precision;
        Recall := recall;
        Retention_Cost := total_retention_cost;
        Revenue_Saved := revenue_saved;
        Opportunity_Cost := opportunity_cost;
        Net_ROI := net_roi |}.

(** [numpy.arange(start, stop, step)] on Python floats: the length is
    [ceil((stop - start) / step)]; the first two entries are [start] and
    [start + step], and entry [i] is [start + i * delta] where [delta] is
    the difference of the first two.  A length that is no machine integer
    is an error. *)
Definition arange_entry (start next : F) (i : nat) : F :=
  match i with
  | O => start
  | S O => next
  | _ => let delta := (next - start)%num in
         (start + of_int (Z.of_nat i) * delta)%num
  end.

Definition arange (start stop step : F) : result (list F) :=
  if (step =? of_int 0)%num then Raise ZeroDivisionError
  else
    match nceil ((stop - start) / step)%num with
    | None => Raise OverflowError
    | Some len =>
        let next := (start + step)%num in
        Ok (map (arange_entry start next) (seq 0 (Z.to_nat len)))
    end.

(** The [for t in thresholds] loop: [results] is the list built so far;
    an exception raised by a call leaves the loop. *)
Fixpoint sweep_loop (y_true : list Z) (y_proba : list F)
    (cost_matrix : gmap string F) (thresholds : list F)
    (results : list metrics) : result (list metrics) :=
  match thresholds with
  | [] => Ok results
  | t :: thresholds' =>
      metrics ← calculate_business_metrics y_true y_proba t cost_matrix;
      sweep_loop y_true y_proba cost_matrix thresholds' (results ++ [metrics])
  end.

Definition default_start : F := decimal 1 10.
Definition default_end : F := decimal 95 100.
Definition default_step : F := decimal 5 100.

Definition threshold_sweep (y_true : list Z) (y_proba : list F)
    (cost_matrix : gmap string F) (start end_ step : F)
    : result (list metrics) :=
  thresholds ← arange start end_ step;
  sweep_loop y_true y_proba cost_matrix thresholds [].

(** A column of the table: integer counts or numbers. *)
Inductive series : Type :=
  | IntSeries (values : list Z)
  | NumSeries (values : list F).

(** [sweep_df[name]].  The list of rows stands for the frame
    [pd.DataFrame(records)] that [threshold_sweep] builds: with no record
    that frame has no column either, and every name is a [KeyError].  A
    frame that keeps its columns and has no row (there [idxmax] raises
    [ValueError] instead) is no value of this type; both fail. *)
Definition getcol (sweep_df : list metrics) (name : string) : result series :=
  match sweep_df with
  | [] => Raise (KeyError name)
  | _ =>
      if String.eqb name "Threshold" then Ok (NumSeries (map Threshold sweep_df))
      else if String.eqb name "Customers_Contacted"
        then Ok (IntSeries (map Customers_Contacted sweep_df))
      else if String.eqb name "TP" then Ok (IntSeries (map TP sweep_df))
      else if String.eqb name "FP" then Ok (IntSeries (map FP sweep_df))
      else if String.eqb name "FN" then Ok (IntSeries (map FN sweep_df))
      else if String.eqb name "TN" then Ok (IntSeries (map TN sweep_df))
      else if String.eqb name "Precision" then Ok (NumSeries (map Precision sweep_df))
      else if String.eqb name "Recall" then Ok (NumSeries (map Recall sweep_df))
      else if String.eqb name "Retention_Cost"
        then Ok (NumSeries (map Retention_Cost sweep_df))
      else if String.eqb name "Revenue_Saved"
        then Ok (NumSeries (map Revenue_Saved sweep_df))
      else if String.eqb name "Opportunity_Cost"
        then Ok (NumSeries (map Opportunity_Cost sweep_df))
      else if String.eqb name "Net_ROI" then Ok (NumSeries (map Net_ROI sweep_df))
      else Raise (KeyError name)
  end.

(** [argmax]: one pass from the left that moves only to a strictly
    greater value, so the first position of the maximum is kept. *)
Fixpoint argmax_from {A} (gtb : A -> A -> bool) (best : A) (best_i i : nat)
    (values : list A) : nat :=
  match values with
  | [] => best_i
  | x :: values' =>
      if gtb x best then argmax_from gtb x i (S i) values'
      else argmax_from gtb best best_i (S i) values'
  end.

Definition argmax {A} (gtb : A -> A -> bool) (values : list A) : result nat :=
  match values with
  | [] => Raise (ValueError "attempt to get argmax of an empty sequence")
  | x :: values' => Ok (argmax_from gtb x 0%nat 1%nat values')
  end.

(** [column.idxmax()]: with the default index the label is the position. *)
Definition idxmax (column : series) : result nat :=
  match column with
  | IntSeries values => argmax (fun x y => y <? x) values
  | NumSeries values => argmax (fun x y => (x >? y)%num) values
  end.

(** [sweep_df.loc[idx]] *)
Definition loc (sweep_df : list metrics) (idx : nat) : result metrics :=
  match sweep_df !! idx with
  | Some row => Ok row
  | None => Raise (KeyError "index label")
  end.

Definition find_optimal_threshold (sweep_df : list metrics) (metric : string)
    : result metrics :=
  column ← getcol sweep_df metric;
  optimal_idx ← idxmax column;
  loc sweep_df optimal_idx.

(** What "an ascending half-open grid [[start, end_)]" asks of a list of
    thresholds. *)
Fixpoint ascending (grid : list F) : bool :=
  match grid with
  | x :: (y :: _) as rest => (x <? y)%num && ascending rest
  | _ => true
  end.

Definition within (start end_ : F) (grid : list F) : bool :=
  forallb (fun t => (start <=? t)%num && (t <? end_)%num) grid.

Definition half_open_grid (start end_ : F) (grid : list F) : bool :=
  ascending grid && within start end_ grid.

(** *** roi_analysis.py *)

Record model_choice : Type := {
  model : string;
  threshold : F;
  roi : F;
  sweep : list metrics;
  optimal : metrics
}.

Definition compare_models (lr_sweep rf_sweep : list metrics)
    : result model_choice :=
  lr_roi ← getcol lr_sweep "Net_ROI";
  lr_optimal_idx ← idxmax lr_roi;
  rf_roi ← getcol rf_sweep "Net_ROI";
  rf_optimal_idx ← idxmax rf_roi;
  lr_optimal ← loc lr_sweep lr_optimal_idx;
  rf_optimal ← loc rf_sweep rf_optimal_idx;
  if (Net_ROI lr_optimal >? Net_ROI rf_optimal)%num then
    Ok {| model := "Logistic Regression";
          threshold := Threshold lr_optimal;
          roi := Net_ROI lr_optimal;
          sweep := lr_sweep;
          optimal := lr_optimal |}
  else
    Ok {| model := "Random Forest";
          threshold := Threshold rf_optimal;
          roi := Net_ROI rf_optimal;
          sweep := rf_sweep;
          optimal := rf_optimal |}.

(** *** segment_strategy.py *)

(** Code that reads and updates the object store and may raise. *)
Definition state (A : Type) : Type := heap F -> heap F * result A.

#[local] Instance state_ret : MRet state := fun A a h => (h, Ok a).
#[local] Instance state_bind : MBind state := fun A B f m h =>
  match m h with
  | (h', Ok a) => f a h'
  | (h', Raise e) => (h', Raise e)
  end.

Definition st_copy (r : ref) : state ref :=
  fun h => let '(h', r') := dict_copy h r in (h', Ok r').
Definition st_setitem (r : ref) (k : string) (v : F) : state unit :=
  fun h => (dict_setitem h r k v, Ok tt).
Definition st_getitem (r : ref) (k : string) : state F :=
  fun h => (h, dict_getitem h r k).
(** the items of the object behind [r], for a callee that only reads them *)
Definition st_deref (r : ref) : state (gmap string F) :=
  fun h => (h, Ok (deref h r)).
Definition st_lift {A} (x : result A) : state A := fun h => (h, x).

(** The block of [segment_threshold_analysis] that builds the local
    [segment_cost_matrix] from [base_cost_matrix] and [segment_clv]. *)
Definition segment_cost_matrix (segment_clv : F) (base_cost_matrix : ref)
    : state ref :=
  segment_cost_matrix ← st_copy base_cost_matrix;
  _ ← st_setitem segment_cost_matrix "CLV" segment_clv;
  rate ← st_getitem base_cost_matrix "RETENTION_SUCCESS_RATE";
  retention_cost ← st_getitem base_cost_matrix "RETENTION_COST";
  _ ← st_setitem segment_cost_matrix "TP" (segment_clv * rate - retention_cost)%num;
  rate ← st_getitem base_cost_matrix "RETENTION_SUCCESS_RATE";
  _ ← st_setitem segment_cost_matrix "FN" (- (segment_clv * rate))%num;
  mret segment_cost_matrix.

(** [y_true] and [y_proba] are the [y_true] and [proba_col] columns of
    [df_segment].  The [thresholds] argument only receives its default
    and is not passed on: the sweep runs on the default grid. *)
Definition segment_threshold_analysis (y_true : list Z) (y_proba : list F)
    (segment_clv : F) (base_cost_matrix : ref) (thresholds : option (list F))
    : state (list metrics) :=
  segment_cost_matrix ← segment_cost_matrix segment_clv base_cost_matrix;
  cost_matrix ← st_deref segment_cost_matrix;
  st_lift (threshold_sweep y_true y_proba cost_matrix
             default_start default_end default_step).

(** [sweep_df[sweep_df['Threshold'] == t]['Net_ROI'].values[0]] *)
Definition roi_at_threshold (sweep_df : list metrics) (t : F) : result F :=
  match sweep_df with
  | [] => Raise (KeyError "Threshold")
  | _ =>
      match List.filter (fun row => (Threshold row =? t)%num) sweep_df with
      | [] => Raise IndexError
      | row :: _ => Ok (Net_ROI row)
      end
  end.

Record strategy_comparison : Type := {
  single_threshold : F;
  single_high_roi : F;
  single_low_roi : F;
  single_total_roi : F;
  high_value_optimal : metrics;
  low_value_optimal : metrics;
  segment_total_roi : F;
  improvement : F
}.

Definition compare_strategies (high_value_sweep low_value_sweep : list metrics)
    (best_single_threshold : F) : result strategy_comparison :=
  high_roi ← getcol high_value_sweep "Net_ROI";
  high_idx ← idxmax high_roi;
  high_value_optimal ← loc high_value_sweep high_idx;
  low_roi ← getcol low_value_sweep "Net_ROI";
  low_idx ← idxmax low_roi;
  low_value_optimal ← loc low_value_sweep low_idx;
  single_high ← roi_at_threshold high_value_sweep best_single_threshold;
  single_low ← roi_at_threshold low_value_sweep best_single_threshold;
  let single_total := (single_high + single_low)%num in
  let segment_total :=
    (Net_ROI high_value_optimal + Net_ROI low_value_optimal)%num in
  let improvement := (segment_total - single_total)%num in
  Ok {| single_threshold := best_single_threshold;
        single_high_roi := single_high;
        single_low_roi := single_low;
        single_total_roi := single_total;
        high_value_optimal := high_value_optimal;
        low_value_optimal := low_value_optimal;
        segment_total_roi := segment_total;
        improvement := improvement |}.
(** Position [k] of [column] holds a maximum of the column and every
    earlier entry is strictly smaller. *)
Definition first_maximum {A} (leb : A -> A -> bool) (values : list A) (k : nat)
    : Prop :=
  exists m, values !! k = Some m /\
    (forall j x, values !! j = Some x -> leb x m = true) /\
    (forall j x, (j < k)%nat -> values !! j = Some x -> leb m x = false).

Definition series_first_maximum (column : series) (k : nat) : Prop :=
  match column with
  | IntSeries values => first_maximum Z.leb values k
  | NumSeries values => first_maximum nleb values k
  end.

End Business.

Arguments metrics F : clear implicits.
Arguments series F : clear implicits.
Arguments model_choice F : clear implicits.
Arguments strategy_comparison F : clear implicits.
Arguments state F A : clear implicits.

(** ** Customer tables: CLV and value segments

    [calculate_clv] of [cost_matrix.py], [create_value_segments] and
    [calculate_segment_clv] of [segment_strategy.py].  A customer table is
    the list of its rows; of a row only the columns these functions touch
    are kept.  [charge_column] is given as the projection of the column it
    names.  The statistics are the library's [mean] and [median] as values:
    the sum over the count, the middle of the sorted values.  The order in
    which binary64 rounds a long sum is not modelled, and the NaN the
    library returns on an empty column is what [0 / 0] is in binary64; the
    properties below are stated for exact numbers and non-empty columns. *)

Section Population.
Context {F : Type} `{Number F}.

Record customer : Type := {
  MonthlyCharges : F;
  value_segment : string
}.

Definition not_a_number : F := (of_int 0 / of_int 0)%num.

(** [column.sum()] *)
Definition series_sum (values : list F) : F := foldl nadd (of_int 0) values.

(** [column.mean()] *)
Definition series_mean (values : list F) : F :=
  (series_sum values / of_int (Z.of_nat (length values)))%num.

Fixpoint insert_sorted (x : F) (l : list F) : list F :=
  match l with
  | [] => [x]
  | y :: l' => if (x <=? y)%num then x :: l else y :: insert_sorted x l'
  end.

Definition sort_values (values : list F) : list F :=
  foldr insert_sorted [] values.

(** [column.median()]: the middle value, or the mean of the two middle
    values of an even number of them. *)
Definition series_median (values : list F) : F :=
  let sorted := sort_values values in
  let n := length values in
  match n with
  | O => not_a_number
  | _ =>
      if Nat.even n
      then ((nth (n / 2 - 1) sorted not_a_number
             + nth (n / 2) sorted not_a_number) / of_int 2)%num
      else nth (n / 2) sorted not_a_number
  end.

Definition calculate_clv (df : list customer) (avg_remaining_months : Z) : F :=
  let avg_monthly_charge := series_mean (map MonthlyCharges df) in
  (avg_monthly_charge * of_int avg_remaining_months)%num.

(** Returns the copy of the table with its [value_segment] column set,
    and the median. *)
Definition create_value_segments (df : list customer)
    (charge_column : customer -> F) : list customer * F :=
  let charge_median := series_median (map charge_column df) in
  (map (fun c =>
          {| MonthlyCharges := MonthlyCharges c;
             value_segment :=
               if (charge_column c >=? charge_median)%num
               then "High-Value" else "Low-Value" |})
       df,
   charge_median).

Definition calculate_segment_clv (df : list customer) (segment : string)
    (avg_remaining_months : Z) : F :=
  let segment_df :=
    List.filter (fun c => String.eqb (value_segment c) segment) df in
  (series_mean (map MonthlyCharges segment_df) * of_int avg_remaining_months)%num.

End Population.

Arguments customer F : clear implicits.

(** The names of the columns of a sweep table. *)
Definition metric_names : list string :=
  ["Threshold"; "Customers_Contacted"; "TP"; "FP"; "FN"; "TN"; "Precision";
   "Recall"; "Retention_Cost"; "Revenue_Saved"; "Opportunity_Cost"; "Net_ROI"].

(** ** Concrete data

    The scenario of the specification: five customers, threshold [0.5],
    CLV 1200, retention cost 50, success rate 0.25. *)

Module Scenario.

Definition y_true : list Z := [1; 0; 1; 0; 1].
Definition y_proba : list float := [0.9; 0.2; 0.6; 0.4; 0.8]%float.
Definition cost_matrix : gmap string float :=
  get_cost_matrix 1200%float 50%float 0.25%float.

Definition record_at_half : metrics float :=
  {| Threshold := 0.5%float;
     Customers_Contacted := 3;
     TP := 3; FP := 0; FN := 0; TN := 2;
     Precision := 1%float;
     Recall := 1%float;
     Retention_Cost := 150%float;
     Revenue_Saved := 900%float;
     Opportunity_Cost := 0%float;
     Net_ROI := 750%float |}.

(** The same scenario in exact arithmetic. *)
Definition y_proba_q : list Q := [9 # 10; 2 # 10; 6 # 10; 4 # 10; 8 # 10]%Q.
Definition cost_matrix_q : gmap string Q :=
  get_cost_matrix (1200 # 1)%Q (50 # 1)%Q (1 # 4)%Q.

(** Two small sweep tables over [Q]; only thresholds and ROI matter. *)
Definition row (t net_roi : Q) : metrics Q :=
  {| Threshold := t;
     Customers_Contacted := 0;
     TP := 0; FP := 0; FN := 0; TN := 0;
     Precision := 0%Q; Recall := 0%Q;
     Retention_Cost := 0%Q; Revenue_Saved := net_roi;
     Opportunity_Cost := 0%Q; Net_ROI := net_roi |}.

Definition lr_sweep : list (metrics Q) :=
  [row (1 # 10) (100 # 1); row (2 # 10) (300 # 1); row (3 # 10) (300 # 1);
   row (4 # 10) (200 # 1)]%Q.
Definition rf_sweep : list (metrics Q) :=
  [row (1 # 10) (250 # 1); row (2 # 10) (300 # 1); row (3 # 10) (120 # 1)]%Q.

(** The default sweeps of two score vectors for the five customers, in
    binary64. *)
Definition sweep_of (scores : list float) : list (metrics float) :=
  match threshold_sweep y_true scores cost_matrix
          default_start default_end default_step with
  | Ok table => table
  | Raise _ => []
  end.

Definition lr_sweep_f : list (metrics float) := sweep_of y_proba.
Definition rf_sweep_f : list (metrics float) :=
  sweep_of [0.7; 0.3; 0.55; 0.45; 0.95]%float.

End Scenario.

(** A customer table with five rows, and the exact records of the
    scenario at a threshold. *)
Module Population.

Definition df : list (customer Q) :=
  map (fun x => {| MonthlyCharges := x; value_segment := "" |})
      [20 # 1; 50 # 1; 70 # 1; 90 # 1; 110 # 1]%Q.

Definition tagged : list (customer Q) := (create_value_segments df MonthlyCharges).1.

Definition record_at (t : Q) : metrics Q :=
  match calculate_business_metrics Scenario.y_true Scenario.y_proba_q t
          Scenario.cost_matrix_q with
  | Ok r => r
  | Raise _ => Scenario.row 0 0
  end.

Definition sweep_q : list (metrics Q) :=
  match threshold_sweep Scenario.y_true Scenario.y_proba_q Scenario.cost_matrix_q
          (1 # 10) (95 # 100) (5 # 100) with
  | Ok table => table
  | Raise _ => []
  end.

End Population.

(** ** What the selections are required to return *)





(** Sweeps of the scenario at the edges, in binary64: a grid that
    descends (negative step), and a CLV near the largest double. *)
Module Extremes.





End Extremes.

(** * Properties *)

(** One step of a computation in [result] whose outcome [H] gives. *)
Ltac run_with H := rewrite H; cbn [mbind result_bind].

(** ** The confusion matrix *)

Lemma insert_label_elem (x y : Z) (l : list Z) :
  y ∈ insert_label x l ↔ y = x ∨ y ∈ l.
Proof.
  induction l as [|z l IH]; simpl.
  - rewrite list_elem_of_singleton, elem_of_nil. tauto.
  - destruct (x <? z) eqn:E1; [by rewrite elem_of_cons|].
    destruct (x =? z) eqn:E2.
    + apply Z.eqb_eq in E2. subst z. rewrite elem_of_cons. tauto.
    + rewrite !elem_of_cons, IH. tauto.
Qed.

Lemma unique_labels_elem (y : Z) (y_true y_pred : list Z) :
  y ∈ unique_labels y_true y_pred ↔ y ∈ y_true ∨ y ∈ y_pred.
Proof.
  unfold unique_labels. rewrite <- elem_of_app.
  induction (y_true ++ y_pred) as [|x l IH]; simpl.
  - reflexivity.
  - rewrite insert_label_elem, IH, elem_of_cons. reflexivity.
Qed.

Lemma insert_label_sorted (x : Z) (l : list Z) :
  StronglySorted Z.lt l → StronglySorted Z.lt (insert_label x l).
Proof.
  induction 1 as [|z l Hs IH Hz]; simpl.
  - repeat constructor.
  - destruct (x <? z) eqn:E1.
    + apply Z.ltb_lt in E1. constructor; [by constructor|].
      constructor; [done|]. eapply Forall_impl; [exact Hz|]. simpl. lia.
    + destruct (x =? z) eqn:E2; [by constructor|].
      apply Z.ltb_ge in E1. apply Z.eqb_neq in E2.
      constructor; [done|]. apply Forall_forall. intros y Hy.
      apply insert_label_elem in Hy as [->|Hy]; [lia|].
      by eapply Forall_forall in Hz.
Qed.

Lemma unique_labels_sorted (y_true y_pred : list Z) :
  StronglySorted Z.lt (unique_labels y_true y_pred).
Proof.
  unfold unique_labels. induction (y_true ++ y_pred); simpl.
  - constructor.
  - by apply insert_label_sorted.
Qed.

Lemma count_pairs_nonneg (a b : Z) (ps : list (Z * Z)) : 0 ≤ count_pairs a b ps.
Proof.
  induction ps as [|[t p] ps IH]; simpl; [lia|].
  destruct ((t =? a) && (p =? b)); lia.
Qed.

(** Two distinct labels that cover every sample: the four cells partition
    the samples. *)
Lemma count_pairs_partition (a b : Z) (ps : list (Z * Z)) :
  a ≠ b →
  Forall (fun tp => (tp.1 = a ∨ tp.1 = b) ∧ (tp.2 = a ∨ tp.2 = b)) ps →
  count_pairs a a ps + count_pairs a b ps + count_pairs b a ps
    + count_pairs b b ps = Z.of_nat (length ps).
Proof.
  intros Hab. induction 1 as [|[t p] ps [Ht Hp] _ IH]; simpl in *; [done|].
  rewrite Nat2Z.inj_succ, <- IH.
  destruct Ht as [-> | ->], Hp as [-> | ->];
    rewrite ?Z.eqb_refl; simpl;
    repeat match goal with
    | |- context [?x =? ?y] =>
        let E := fresh in destruct (x =? y) eqn:E;
        [apply Z.eqb_eq in E; congruence|]; simpl
    end; lia.
Qed.

(** Samples predicted as [b], whatever their true label among [a], [b]. *)
Lemma count_pairs_column (a b : Z) (ps : list (Z * Z)) :
  a ≠ b →
  Forall (fun tp => tp.1 = a ∨ tp.1 = b) ps →
  count_pairs a b ps + count_pairs b b ps
    = Z.of_nat (length (List.filter (fun tp => tp.2 =? b) ps)).
Proof.
  intros Hab. induction 1 as [|[t p] ps Ht _ IH]; simpl in *; [done|].
  destruct (p =? b) eqn:Ep; simpl; rewrite ?Nat2Z.inj_succ, <- ?IH;
    rewrite ?andb_false_r, ?andb_true_r.
  - destruct Ht as [-> | ->]; rewrite Z.eqb_refl.
    + destruct (a =? b) eqn:E; [apply Z.eqb_eq in E; congruence|]. lia.
    + destruct (b =? a) eqn:E; [apply Z.eqb_eq in E; congruence|]. lia.
  - lia.
Qed.

Lemma ravel_length (g : Z → Z → Z) (rows cols : list Z) :
  length (ravel (map (fun a => map (g a) cols) rows))
    = (length rows * length cols)%nat.
Proof.
  unfold ravel. induction rows as [|a rows IH]; simpl; [done|].
  rewrite length_app, length_map, IH. done.
Qed.

Lemma unpack4_ok (values : list Z) (x : Z * Z * Z * Z) :
  unpack4 values = Ok x ↔
  ∃ a b c d, values = [a; b; c; d] ∧ x = (a, b, c, d).
Proof.
  split.
  - destruct values as [|a [|b [|c [|d [|e l]]]]]; simpl; try discriminate.
    intros [= <-]. by exists a, b, c, d.
  - intros (a & b & c & d & -> & ->). done.
Qed.

Lemma zip_predict_covered {F} `{Number F}
    (y_true : list Z) (y_proba : list F) (t : F) (a b : Z) :
  unique_labels y_true (predict y_proba t) = [a; b] →
  Forall (fun tp => (tp.1 = a ∨ tp.1 = b) ∧ (tp.2 = a ∨ tp.2 = b))
         (zip y_true (predict y_proba t)).
Proof.
  intros Hl. apply Forall_forall. intros [x y] Hin. simpl.
  assert (Hx : x ∈ [a; b]).
  { rewrite <- Hl. apply unique_labels_elem. left.
    by apply elem_of_zip_l in Hin. }
  assert (Hy : y ∈ [a; b]).
  { rewrite <- Hl. apply unique_labels_elem. right.
    by apply elem_of_zip_r in Hin. }
  rewrite !elem_of_cons, !elem_of_nil in Hx, Hy. tauto.
Qed.

Lemma two_labels_distinct (y_true y_pred : list Z) (a b : Z) :
  unique_labels y_true y_pred = [a; b] → a < b.
Proof.
  intros Hl. pose proof (unique_labels_sorted y_true y_pred) as Hs.
  rewrite Hl in Hs. apply StronglySorted_inv in Hs as [_ Hs].
  by apply Forall_inv in Hs.
Qed.

(** ** [calculate_business_metrics] *)

Section Metrics.
Context {F : Type} `{Number F}.

(** What a call that returns has computed. *)
Lemma calculate_business_metrics_inv
    (y_true : list Z) (y_proba : list F) (t : F) (cm : gmap string F)
    (r : metrics F) :
  calculate_business_metrics y_true y_proba t cm = Ok r →
  ∃ (a b : Z) (retention_cost rate clv : F),
    length y_true = length y_proba ∧
    unique_labels y_true (predict y_proba t) = [a; b] ∧
    cm !! "RETENTION_COST" = Some retention_cost ∧
    cm !! "RETENTION_SUCCESS_RATE" = Some rate ∧
    cm !! "CLV" = Some clv ∧
    let ps := zip y_true (predict y_proba t) in
    r = {| Threshold := t;
           Customers_Contacted := count_pairs b b ps + count_pairs a b ps;
           TP := count_pairs b b ps;
           FP := count_pairs a b ps;
           FN := count_pairs b a ps;
           TN := count_pairs a a ps;
           Precision :=
             if 0 <? count_pairs b b ps + count_pairs a b ps
             then (of_int (count_pairs b b ps)
                   / of_int (count_pairs b b ps + count_pairs a b ps))%num
             else of_int 0;
           Recall :=
             if 0 <? count_pairs b b ps + count_pairs b a ps
             then (of_int (count_pairs b b ps)
                   / of_int (count_pairs b b ps + count_pairs b a ps))%num
             else of_int 0;
           Retention_Cost :=
             (of_int (count_pairs b b ps + count_pairs a b ps) * retention_cost)%num;
           Revenue_Saved := (of_int (count_pairs b b ps) * rate * clv)%num;
           Opportunity_Cost := (of_int (count_pairs b a ps) * rate * clv)%num;
           Net_ROI :=
             (of_int (count_pairs b b ps) * rate * clv
              - of_int (count_pairs b b ps + count_pairs a b ps) * retention_cost)%num
        |}.
Proof.
  unfold calculate_business_metrics, confusion_matrix.
  destruct (length y_true =? length (predict y_proba t))%nat eqn:Elen;
    simpl; [|discriminate].
  apply Nat.eqb_eq in Elen. unfold predict in Elen at 1.
  rewrite length_map in Elen.
  set (ps := zip y_true (predict y_proba t)).
  destruct (unpack4 _) as [[[[tn fp] fn] tp]|e] eqn:Eun; simpl; [|discriminate].
  pose proof Eun as Hlen4.
  apply unpack4_ok in Hlen4 as (x1 & x2 & x3 & x4 & Hrav & Hx).
  apply (f_equal length) in Hrav.
  rewrite (ravel_length (fun a b => count_pairs a b ps)) in Hrav.
  simpl in Hrav.
  destruct (unique_labels y_true (predict y_proba t)) as [|a [|b [|c l]]] eqn:El;
    simpl in Hrav; try lia.
  simpl in Eun. injection Eun as <- <- <- <-.
  unfold getitem.
  destruct (cm !! "RETENTION_COST") as [rc|] eqn:E1; simpl; [|discriminate].
  destruct (cm !! "RETENTION_SUCCESS_RATE") as [rate|] eqn:E2; simpl; [|discriminate].
  destruct (cm !! "CLV") as [clv|] eqn:E3; simpl; [|discriminate].
  intros [= <-]. by exists a, b, rc, rate, clv.
Qed.

(** When a call returns: no check other than these is made. *)
Lemma calculate_business_metrics_ok_iff
    (y_true : list Z) (y_proba : list F) (t : F) (cm : gmap string F) :
  is_ok (calculate_business_metrics y_true y_proba t cm) = true ↔
  length y_true = length y_proba ∧
  length (unique_labels y_true (predict y_proba t)) = 2%nat ∧
  is_Some (cm !! "RETENTION_COST") ∧
  is_Some (cm !! "RETENTION_SUCCESS_RATE") ∧
  is_Some (cm !! "CLV").
Proof.
  split.
  - destruct (calculate_business_metrics _ _ _ _) as [r|e] eqn:E; [|discriminate].
    intros _.
    apply calculate_business_metrics_inv
      in E as (a & b & rc & rate & clv & Hlen & Hl & H1 & H2 & H3 & _).
    rewrite Hl, H1, H2, H3. eauto.
  - intros (Hlen & Hl & [rc H1] & [rate H2] & [clv H3]).
    unfold calculate_business_metrics, confusion_matrix.
    unfold predict at 1. rewrite length_map, Hlen, Nat.eqb_refl. simpl.
    destruct (unique_labels y_true (predict y_proba t)) as [|a [|b [|c l]]];
      try discriminate.
    simpl. unfold getitem. rewrite H1, H2, H3. done.
Qed.

End Metrics.

(** ** Exact arithmetic obeys the laws *)

#[global] Instance Q_number_laws : NumberLaws Q.
Proof.
  split; simpl.
  - intros x. apply Qle_bool_iff, Qle_refl.
  - intros x y z Hxy Hyz. apply Qle_bool_iff.
    apply Qle_bool_iff in Hxy. apply Qle_bool_iff in Hyz.
    by apply Qle_trans with y.
  - intros x y Hxy. apply Qle_bool_iff.
    destruct (Qlt_le_dec y x) as [Hlt|Hle].
    + by apply Qlt_le_weak.
    + apply Qle_bool_iff in Hle. congruence.
  - reflexivity.
  - intros x y. unfold Qeq_bool, Qle_bool.
    destruct (Z.eqb_spec (Qnum x * Z.pos (Qden y)) (Qnum y * Z.pos (Qden x)));
      destruct (Z.leb_spec (Qnum x * Z.pos (Qden y)) (Qnum y * Z.pos (Qden x)));
      destruct (Z.leb_spec (Qnum y * Z.pos (Qden x)) (Qnum x * Z.pos (Qden y)));
      simpl; try reflexivity; lia.
  - intros a b c d Hab Hcd. apply Qle_bool_iff.
    apply Qle_bool_iff in Hab. apply Qle_bool_iff in Hcd.
    by apply Qplus_le_compat.
  - intros a b Hab. apply Qle_bool_iff. apply Qle_bool_iff in Hab.
    by apply (proj1 (Qle_minus_iff a b)).
Qed.

Section MetricsRecord.
Context {F : Type} `{Number F}.

(** C1. The record returned by [calculate_business_metrics] has
    [Retention_Cost = (TP + FP) * RETENTION_COST],
    [Revenue_Saved = TP * RETENTION_SUCCESS_RATE * CLV],
    [Opportunity_Cost = FN * RETENTION_SUCCESS_RATE * CLV] and
    [Net_ROI = Revenue_Saved - Retention_Cost]: the opportunity cost is
    reported and not subtracted. *)
Theorem business_metrics_formulas
    (y_true : list Z) (y_proba : list F) (t : F) (cm : gmap string F)
    (r : metrics F) :
  calculate_business_metrics y_true y_proba t cm = Ok r →
  ∃ retention_cost rate clv : F,
    cm !! "RETENTION_COST" = Some retention_cost ∧
    cm !! "RETENTION_SUCCESS_RATE" = Some rate ∧
    cm !! "CLV" = Some clv ∧
    Retention_Cost r = (of_int (TP r + FP r) * retention_cost)%num ∧
    Revenue_Saved r = (of_int (TP r) * rate * clv)%num ∧
    Opportunity_Cost r = (of_int (FN r) * rate * clv)%num ∧
    Net_ROI r = (Revenue_Saved r - Retention_Cost r)%num.
Proof.
  intros Hr.
  apply calculate_business_metrics_inv
    in Hr as (a & b & rc & rate & clv & _ & _ & H1 & H2 & H3 & ->).
  exists rc, rate, clv. simpl. repeat split; assumption.
Qed.

(** C6. In a returned record the four contingency counts are non-negative
    and add up to the number of customers, the common length of [y_true]
    and [y_proba]; [Customers_Contacted] is [TP + FP]. *)
Theorem contingency_counts_conserved
    (y_true : list Z) (y_proba : list F) (t : F) (cm : gmap string F)
    (r : metrics F) :
  calculate_business_metrics y_true y_proba t cm = Ok r →
  0 ≤ TP r ∧ 0 ≤ FP r ∧ 0 ≤ FN r ∧ 0 ≤ TN r ∧
  length y_true = length y_proba ∧
  TP r + FP r + FN r + TN r = Z.of_nat (length y_true) ∧
  Customers_Contacted r = TP r + FP r.
Proof.
  intros Hr.
  apply calculate_business_metrics_inv
    in Hr as (a & b & rc & rate & clv & Hlen & Hl & _ & _ & _ & ->).
  simpl. repeat split; try apply count_pairs_nonneg; try done.
  pose proof (two_labels_distinct _ _ _ _ Hl) as Hab.
  pose proof (count_pairs_partition a b _ ltac:(lia) (zip_predict_covered _ _ _ _ _ Hl))
    as Hsum.
  rewrite length_zip in Hsum. unfold predict in Hsum at 5.
  rewrite length_map, <- Hlen, Nat.min_id in Hsum. lia.
Qed.

End MetricsRecord.

Lemma business_metrics_formulas_witness :
  let r := Scenario.record_at_half in
  ∃ retention_cost rate clv : float,
    Scenario.cost_matrix !! "RETENTION_COST" = Some retention_cost ∧
    Scenario.cost_matrix !! "RETENTION_SUCCESS_RATE" = Some rate ∧
    Scenario.cost_matrix !! "CLV" = Some clv ∧
    Retention_Cost r = (of_int (TP r + FP r) * retention_cost)%num ∧
    Revenue_Saved r = (of_int (TP r) * rate * clv)%num ∧
    Opportunity_Cost r = (of_int (FN r) * rate * clv)%num ∧
    Net_ROI r = (Revenue_Saved r - Retention_Cost r)%num.
Proof.
  apply (business_metrics_formulas
           Scenario.y_true Scenario.y_proba 0.5%float Scenario.cost_matrix
           Scenario.record_at_half).
  vm_compute. reflexivity.
Defined.

Lemma contingency_counts_conserved_witness :
  let r := Scenario.record_at_half in
  0 ≤ TP r ∧ 0 ≤ FP r ∧ 0 ≤ FN r ∧ 0 ≤ TN r ∧
  length Scenario.y_true = length Scenario.y_proba ∧
  TP r + FP r + FN r + TN r = Z.of_nat (length Scenario.y_true) ∧
  Customers_Contacted r = TP r + FP r.
Proof.
  apply (contingency_counts_conserved
           Scenario.y_true Scenario.y_proba 0.5%float Scenario.cost_matrix
           Scenario.record_at_half).
  vm_compute. reflexivity.
Defined.

(** ** Predictions *)

Section Predictions.
Context {F : Type} `{Number F}.

Lemma predict_lookup (y_proba : list F) (t : F) (i : nat) (p : F) :
  y_proba !! i = Some p →
  predict y_proba t !! i = Some (if (p >=? t)%num then 1 else 0).
Proof. intros Hp. unfold predict. by rewrite list_lookup_fmap, Hp. Qed.

Lemma predict_binary (y_proba : list F) (t : F) (y : Z) :
  y ∈ predict y_proba t → y = 0 ∨ y = 1.
Proof.
  unfold predict. intros Hy. apply list_elem_of_fmap in Hy as (p & -> & _).
  destruct (p >=? t)%num; auto.
Qed.

(** With labels in {0, 1}, a matrix of two labels is the matrix of 0 and 1. *)
Lemma binary_two_labels (y_true : list Z) (y_proba : list F) (t : F) (a b : Z) :
  Forall (fun y => y = 0 ∨ y = 1) y_true →
  unique_labels y_true (predict y_proba t) = [a; b] →
  a = 0 ∧ b = 1.
Proof.
  intros Hbin Hl. pose proof (two_labels_distinct _ _ _ _ Hl) as Hab.
  assert (Hin : ∀ y, y ∈ [a; b] → y = 0 ∨ y = 1).
  { intros y Hy. rewrite <- Hl in Hy. apply unique_labels_elem in Hy as [Hy|Hy].
    - by eapply Forall_forall in Hbin.
    - by eapply predict_binary. }
  destruct (Hin a) as [-> | ->]; [apply elem_of_cons; by left| |];
    (destruct (Hin b) as [-> | ->];
       [apply elem_of_cons; right; apply elem_of_cons; by left| |]); lia.
Qed.

Lemma predicted_positive_count (y_true : list Z) (y_proba : list F) (t : F) :
  length y_true = length y_proba →
  length (List.filter (fun tp : Z * Z => tp.2 =? 1)
            (zip y_true (predict y_proba t)))
    = length (List.filter (fun p => (p >=? t)%num) y_proba).
Proof.
  revert y_proba. induction y_true as [|y y_true IH];
    intros [|p y_proba] Hlen; simpl in *; try done.
  injection Hlen as Hlen.
  destruct (p >=? t)%num; simpl; rewrite IH; done.
Qed.

(** The customers contacted are those predicted positive. *)
Lemma customers_contacted_count
    (y_true : list Z) (y_proba : list F) (t : F) (cm : gmap string F)
    (r : metrics F) :
  Forall (fun y => y = 0 ∨ y = 1) y_true →
  calculate_business_metrics y_true y_proba t cm = Ok r →
  Customers_Contacted r
    = Z.of_nat (length (List.filter (fun p => (p >=? t)%num) y_proba)).
Proof.
  intros Hbin Hr.
  apply calculate_business_metrics_inv
    in Hr as (a & b & rc & rate & clv & Hlen & Hl & _ & _ & _ & ->).
  simpl. destruct (binary_two_labels _ _ _ _ _ Hbin Hl) as [-> ->].
  rewrite Z.add_comm, count_pairs_column; [|done|].
  - by rewrite predicted_positive_count.
  - apply Forall_forall. intros [x y] Hin. simpl.
    apply elem_of_zip_l in Hin. by eapply Forall_forall in Hbin.
Qed.

(** C2. Customer [i] is predicted positive exactly when
    [y_proba[i] >= threshold]; the comparison is inclusive, so a score
    equal to the threshold is positive; the customers contacted are the
    predicted positives, and at threshold 0 with scores [>= 0] that is
    every customer. *)
Theorem prediction_is_inclusive_comparison `{!NumberLaws F}
    (y_true : list Z) (y_proba : list F) (t : F) (cm : gmap string F) :
  (∀ i p, y_proba !! i = Some p →
     predict y_proba t !! i = Some 1 ↔ (p >=? t)%num = true) ∧
  (∀ i, y_proba !! i = Some t → predict y_proba t !! i = Some 1) ∧
  (∀ r, Forall (fun y => y = 0 ∨ y = 1) y_true →
     calculate_business_metrics y_true y_proba t cm = Ok r →
     Customers_Contacted r
       = Z.of_nat (length (List.filter (fun p => (p >=? t)%num) y_proba))) ∧
  (∀ r, Forall (fun y => y = 0 ∨ y = 1) y_true →
     Forall (fun p => (p >=? of_int 0)%num = true) y_proba →
     calculate_business_metrics y_true y_proba (of_int 0) cm = Ok r →
     Customers_Contacted r = Z.of_nat (length y_proba)).
Proof.
  split; [|split; [|split]].
  - intros i p Hi. rewrite (predict_lookup _ _ _ _ Hi).
    destruct (p >=? t)%num; split; intros; done.
  - intros i Hi. rewrite (predict_lookup _ _ _ _ Hi), nleb_refl. done.
  - intros r Hbin Hr. by eapply customers_contacted_count.
  - intros r Hbin Hpos Hr.
    rewrite (customers_contacted_count _ _ _ _ _ Hbin Hr). f_equal.
    clear Hr. induction Hpos as [|p l Hp _ IH]; simpl; [done|].
    rewrite Hp. simpl. by rewrite IH.
Qed.

End Predictions.

Lemma prediction_is_inclusive_comparison_witness :
  predict Scenario.y_proba_q (6 # 10)%Q !! 2%nat = Some 1 ∧
  Customers_Contacted
    {| Threshold := (6 # 10)%Q; Customers_Contacted := 3;
       TP := 3; FP := 0; FN := 0; TN := 2;
       Precision := (3 # 3)%Q; Recall := (3 # 3)%Q;
       Retention_Cost := (150 # 1)%Q; Revenue_Saved := (3600 # 4)%Q;
       Opportunity_Cost := (0 # 4)%Q; Net_ROI := (3000 # 4)%Q |}
  = Z.of_nat (length (List.filter (fun p => (p >=? (6 # 10)%Q)%num)
                                  Scenario.y_proba_q)).
Proof.
  split.
  - apply (prediction_is_inclusive_comparison
             Scenario.y_true Scenario.y_proba_q (6 # 10)%Q Scenario.cost_matrix_q).
    reflexivity.
  - apply (prediction_is_inclusive_comparison
             Scenario.y_true Scenario.y_proba_q (6 # 10)%Q Scenario.cost_matrix_q).
    + unfold Scenario.y_true. repeat (constructor; [lia|]). constructor.
    + vm_compute. reflexivity.
Defined.

(** ** Errors of [calculate_business_metrics] *)



(** ** The sweep *)

Section Sweep.
Context {F : Type} `{Number F}.

Lemma calculate_business_metrics_threshold
    (y_true : list Z) (y_proba : list F) (t : F) (cm : gmap string F)
    (r : metrics F) :
  calculate_business_metrics y_true y_proba t cm = Ok r → Threshold r = t.
Proof.
  intros Hr.
  apply calculate_business_metrics_inv
    in Hr as (a & b & rc & rate & clv & _ & _ & _ & _ & _ & ->).
  reflexivity.
Qed.

(** The loop returns when every call returns, with the records of the
    calls appended in the order of the thresholds. *)
Lemma sweep_loop_ok (y_true : list Z) (y_proba : list F) (cm : gmap string F)
    (thresholds : list F) (results table : list (metrics F)) :
  sweep_loop y_true y_proba cm thresholds results = Ok table ↔
  ∃ rows,
    table = results ++ rows ∧
    Forall2 (fun t row => calculate_business_metrics y_true y_proba t cm = Ok row)
            thresholds rows.
Proof.
  revert results. induction thresholds as [|t ts IH]; intros results; simpl.
  - split.
    + intros [= <-]. exists []. by rewrite app_nil_r.
    + intros (rows & -> & Hrows). apply Forall2_nil_inv_l in Hrows as ->.
      by rewrite app_nil_r.
  - destruct (calculate_business_metrics y_true y_proba t cm) as [row|e] eqn:E;
      simpl.
    + rewrite IH. split.
      * intros (rows & -> & Hrows). exists (row :: rows).
        rewrite <- app_assoc. split; [done|]. by constructor.
      * intros (rows & -> & Hrows).
        apply Forall2_cons_inv_l in Hrows as (row' & rows' & Hrow & Hrows & ->).
        assert (row' = row) as -> by congruence.
        exists rows'. by rewrite <- app_assoc.
    + split; [discriminate|].
      intros (rows & _ & Hrows).
      apply Forall2_cons_inv_l in Hrows as (row' & rows' & Hrow & _).
      congruence.
Qed.

(** The loop raises what the first failing call raises. *)
Lemma sweep_loop_raise (y_true : list Z) (y_proba : list F) (cm : gmap string F)
    (thresholds : list F) (results : list (metrics F)) (e : exn) :
  sweep_loop y_true y_proba cm thresholds results = Raise e ↔
  ∃ before t after,
    thresholds = before ++ t :: after ∧
    Forall (fun t' => is_ok (calculate_business_metrics y_true y_proba t' cm) = true)
           before ∧
    calculate_business_metrics y_true y_proba t cm = Raise e.
Proof.
  revert results. induction thresholds as [|t ts IH]; intros results; simpl.
  - split; [discriminate|]. intros (before & t & after & Heq & _).
    by destruct before.
  - destruct (calculate_business_metrics y_true y_proba t cm) as [row|e'] eqn:E;
      simpl.
    + rewrite IH. split.
      * intros (before & t' & after & -> & Hbefore & Ht').
        exists (t :: before), t', after. repeat split; [|done].
        constructor; [by rewrite E|done].
      * intros (before & t' & after & Heq & Hbefore & Ht').
        destruct before as [|t0 before]; simpl in Heq.
        -- injection Heq as -> ->. congruence.
        -- injection Heq as -> ->. apply Forall_cons in Hbefore as [_ Hbefore].
           by exists before, t', after.
    + split.
      * intros [= ->]. exists [], t, ts. repeat split; [constructor|done].
      * intros (before & t' & after & Heq & Hbefore & Ht').
        destruct before as [|t0 before]; simpl in Heq.
        -- injection Heq as -> ->. congruence.
        -- injection Heq as -> ->. apply Forall_cons in Hbefore as [Hbefore _].
           rewrite E in Hbefore. discriminate.
Qed.

Lemma threshold_sweep_ok (y_true : list Z) (y_proba : list F) (cm : gmap string F)
    (start end_ step : F) (table : list (metrics F)) :
  threshold_sweep y_true y_proba cm start end_ step = Ok table ↔
  ∃ grid,
    arange start end_ step = Ok grid ∧
    Forall2 (fun t row => calculate_business_metrics y_true y_proba t cm = Ok row)
            grid table.
Proof.
  unfold threshold_sweep.
  destruct (arange start end_ step) as [grid|e]; simpl.
  - rewrite sweep_loop_ok. split.
    + intros (rows & -> & Hrows). by exists grid.
    + intros (grid' & [= <-] & Hrows). by exists table.
  - split; [discriminate|]. by intros (grid & ? & _).
Qed.

Lemma sweep_rows_thresholds (y_true : list Z) (y_proba : list F)
    (cm : gmap string F) (grid : list F) (table : list (metrics F)) :
  Forall2 (fun t row => calculate_business_metrics y_true y_proba t cm = Ok row)
          grid table →
  map Threshold table = grid.
Proof.
  induction 1 as [|t row grid table Hrow _ IH]; simpl; [done|].
  by rewrite IH, (calculate_business_metrics_threshold _ _ _ _ _ Hrow).
Qed.

End Sweep.

(** ** The grid in exact arithmetic *)

Lemma ascending_map_seq {F : Type} `{Number F} (f : nat → F) (a n : nat) :
  (∀ i, (f i <? f (S i))%num = true) →
  ascending (map f (seq a n)) = true.
Proof.
  intros Hf. revert a. induction n as [|n IH]; intros a; [done|].
  destruct n as [|n]; [done|].
  specialize (IH (S a)). simpl in *. by rewrite Hf, IH.
Qed.

Lemma within_map_seq {F : Type} `{Number F}
    (start end_ : F) (f : nat → F) (a n : nat) :
  (∀ i, (a ≤ i < a + n)%nat →
        (start <=? f i)%num && (f i <? end_)%num = true) →
  within start end_ (map f (seq a n)) = true.
Proof.
  unfold within. revert a. induction n as [|n IH]; intros a Hf; [done|].
  simpl. rewrite Hf by lia. apply IH. intros i Hi. apply Hf. lia.
Qed.

Lemma arange_entry_Q (start step : Q) (i : nat) :
  (arange_entry start (start + step)%num i
   == start + inject_Z (Z.of_nat i) * step)%Q.
Proof.
  destruct i as [|[|i]]; unfold arange_entry; simpl nadd; simpl nsub;
    simpl nmul; simpl of_int.
  - change (inject_Z (Z.of_nat 0)) with 0%Q. ring.
  - change (inject_Z (Z.of_nat 1)) with 1%Q. ring.
  - ring.
Qed.

(** With exact numbers and a positive step, [arange] is the ascending
    half-open grid of [ceil((stop - start) / step)] points. *)
Lemma arange_Q_half_open (start stop step : Q) :
  (0 < step)%Q →
  ∃ grid,
    arange start stop step = Ok grid ∧
    length grid = Z.to_nat (Qceiling ((stop - start) / step)) ∧
    half_open_grid start stop grid = true.
Proof.
  intros Hstep. unfold arange.
  assert (Hne : (step =? of_int 0)%num = false).
  { simpl. destruct (Qeq_bool step (inject_Z 0)) eqn:E; [|done].
    exfalso. apply Qeq_bool_iff in E. change (inject_Z 0) with 0%Q in E.
    clear - Hstep E. lra. }
  rewrite Hne. simpl nceil. eexists. split; [reflexivity|].
  split; [by rewrite length_map, length_seq|].
  unfold half_open_grid. apply andb_true_iff. split.
  - apply ascending_map_seq. intros i. cbn [nltb nleb Q_number].
    apply negb_true_iff. destruct (Qle_bool _ _) eqn:E; [exfalso|done].
    apply Qle_bool_iff in E. rewrite !arange_entry_Q in E.
    rewrite Nat2Z.inj_succ in E. unfold Z.succ in E.
    rewrite inject_Z_plus in E. change (inject_Z 1) with 1%Q in E. nra.
  - apply within_map_seq. intros i Hi. cbn [nltb nleb Q_number].
    assert (Hi0 : (0 <= inject_Z (Z.of_nat i))%Q).
    { change 0%Q with (inject_Z 0). rewrite <- Zle_Qle. lia. }
    assert (Hx : (inject_Z (Z.of_nat i) < (stop - start) / step)%Q).
    { eapply Qle_lt_trans; [|apply Qceiling_lt].
      rewrite <- Zle_Qle. lia. }
    assert (Hy : (inject_Z (Z.of_nat i) * step < stop - start)%Q).
    { assert (E : (stop - start == (stop - start) / step * step)%Q)
        by (field; lra).
      rewrite E. by apply Qmult_lt_compat_r. }
    apply andb_true_iff. split.
    + apply Qle_bool_iff. rewrite arange_entry_Q. nra.
    + apply negb_true_iff. destruct (Qle_bool _ _) eqn:E; [exfalso|done].
      apply Qle_bool_iff in E. rewrite arange_entry_Q in E. lra.
Qed.

(** ** The grid the sweep runs on *)

(** C3, as the code has it.  [threshold_sweep] returns a table exactly
    when [numpy.arange(start, end, step)] gives a grid and the call of
    [calculate_business_metrics] at every grid point returns; the table
    then has one row per grid point, in grid order, each row the record of
    the call at its grid point.  With the default parameters in binary64
    the grid is the 17 ascending thresholds from 0.1 to 0.9, inside
    [[0.1, 0.95)]; with exact numbers and [step > 0] the grid is always
    ascending and inside [[start, end)]. *)
Theorem threshold_sweep_follows_arange :
  (∀ (F : Type) (N : Number F) (y_true : list Z) (y_proba : list F)
     (cm : gmap string F) (start end_ step : F) (table : list (metrics F)),
     (threshold_sweep y_true y_proba cm start end_ step = Ok table ↔
      ∃ grid,
        arange start end_ step = Ok grid ∧
        Forall2 (fun t row =>
                   calculate_business_metrics y_true y_proba t cm = Ok row)
                grid table) ∧
     (threshold_sweep y_true y_proba cm start end_ step = Ok table →
      arange start end_ step = Ok (map Threshold table))) ∧
  (arange (F := float) default_start default_end default_step
   = Ok [0.1; 0.15000000000000002; 0.20000000000000004; 0.25000000000000006;
         0.30000000000000004; 0.35000000000000009; 0.40000000000000013;
         0.45000000000000007; 0.50000000000000011; 0.55000000000000016;
         0.6000000000000002; 0.65000000000000013; 0.70000000000000018;
         0.75000000000000022; 0.80000000000000016; 0.8500000000000002;
         0.90000000000000024]%float ∧
   (default_start, default_end, default_step) = (0.1, 0.95, 0.05)%float ∧
   ∃ grid, arange (F := float) default_start default_end default_step = Ok grid ∧
           half_open_grid default_start default_end grid = true) ∧
  (∀ start end_ step : Q, (0 < step)%Q →
     ∃ grid, arange start end_ step = Ok grid ∧
             length grid = Z.to_nat (Qceiling ((end_ - start) / step)) ∧
             half_open_grid start end_ grid = true).
Proof.
  split; [|split].
  - intros F N y_true y_proba cm start end_ step table. split.
    + apply threshold_sweep_ok.
    + intros Hsweep. apply threshold_sweep_ok in Hsweep as (grid & Hgrid & Hrows).
      by rewrite (sweep_rows_thresholds _ _ _ _ _ Hrows).
  - split; [vm_compute; reflexivity|]. split; [vm_compute; reflexivity|].
    eexists. split; vm_compute; reflexivity.
  - apply arange_Q_half_open.
Qed.

(** In binary64 the grid of [start = 0.1], [end = 0.4], [step = 0.1] has
    four points and the last one is [0.4]: the sweep evaluates the
    threshold [end] itself. *)
Lemma sweep_reaches_end :
  (0 <? 0.1)%float = true ∧
  (∃ table,
     threshold_sweep Scenario.y_true Scenario.y_proba Scenario.cost_matrix
       0.1%float 0.4%float 0.1%float = Ok table ∧
     map Threshold table = [0.1; 0.2; 0.30000000000000004; 0.4]%float ∧
     half_open_grid 0.1%float 0.4%float (map Threshold table) = false) ∧
  ¬ (∀ table,
       threshold_sweep Scenario.y_true Scenario.y_proba Scenario.cost_matrix
         0.1%float 0.4%float 0.1%float = Ok table →
       half_open_grid 0.1%float 0.4%float (map Threshold table) = true).
Proof.
  assert (Hrun : ∃ table,
     threshold_sweep Scenario.y_true Scenario.y_proba Scenario.cost_matrix
       0.1%float 0.4%float 0.1%float = Ok table ∧
     map Threshold table = [0.1; 0.2; 0.30000000000000004; 0.4]%float ∧
     half_open_grid 0.1%float 0.4%float (map Threshold table) = false).
  { eexists. split; [vm_compute; reflexivity|].
    split; vm_compute; reflexivity. }
  split; [vm_compute; reflexivity|]. split; [exact Hrun|].
  destruct Hrun as (table & Hsweep & _ & Hgrid). intros Hall.
  rewrite (Hall table Hsweep) in Hgrid. discriminate.
Qed.

(** ** Inputs with both classes *)

Section BothClasses.
Context {F : Type} `{Number F}.

Lemma sorted_binary_labels (l : list Z) :
  StronglySorted Z.lt l →
  (∀ y, y ∈ l → y = 0 ∨ y = 1) →
  0 ∈ l → 1 ∈ l →
  l = [0; 1].
Proof.
  intros Hs Hbin H0 H1.
  destruct l as [|a [|b l]].
  - by apply elem_of_nil in H0.
  - apply list_elem_of_singleton in H0, H1. lia.
  - apply StronglySorted_inv in Hs as [Hs Ha].
    apply StronglySorted_inv in Hs as [_ Hb].
    assert (a < b) by (by apply Forall_inv in Ha).
    assert (a = 0 ∨ a = 1) as Ha01 by (apply Hbin; rewrite elem_of_cons; auto).
    assert (b = 0 ∨ b = 1) as Hb01
      by (apply Hbin; rewrite !elem_of_cons; auto).
    assert (a = 0) as -> by lia. assert (b = 1) as -> by lia.
    destruct l as [|c l]; [done|]. exfalso.
    assert (1 < c) by (by apply Forall_inv in Hb).
    assert (c = 0 ∨ c = 1) by (apply Hbin; rewrite !elem_of_cons; auto).
    lia.
Qed.

(** When [y_true] holds both classes the call returns at every threshold,
    also where nobody, or everybody, is contacted. *)
Lemma both_classes_always_evaluated
    (y_true : list Z) (y_proba : list F) (cm : gmap string F) (t : F) :
  Forall (fun y => y = 0 ∨ y = 1) y_true →
  0 ∈ y_true → 1 ∈ y_true →
  length y_true = length y_proba →
  is_Some (cm !! "RETENTION_COST") →
  is_Some (cm !! "RETENTION_SUCCESS_RATE") →
  is_Some (cm !! "CLV") →
  is_ok (calculate_business_metrics y_true y_proba t cm) = true.
Proof.
  intros Hbin H0 H1 Hlen Hc Hr Hv.
  apply calculate_business_metrics_ok_iff. repeat split; try done.
  rewrite (sorted_binary_labels (unique_labels y_true (predict y_proba t))); [done|..].
  - apply unique_labels_sorted.
  - intros y Hy. apply unique_labels_elem in Hy as [Hy|Hy].
    + by eapply Forall_forall in Hbin.
    + by eapply predict_binary.
  - apply unique_labels_elem. by left.
  - apply unique_labels_elem. by left.
Qed.

(** Then the sweep returns a table with one row per grid point. *)
Lemma both_classes_sweep_total
    (y_true : list Z) (y_proba : list F) (cm : gmap string F)
    (start end_ step : F) (grid : list F) :
  Forall (fun y => y = 0 ∨ y = 1) y_true →
  0 ∈ y_true → 1 ∈ y_true →
  length y_true = length y_proba →
  is_Some (cm !! "RETENTION_COST") →
  is_Some (cm !! "RETENTION_SUCCESS_RATE") →
  is_Some (cm !! "CLV") →
  arange start end_ step = Ok grid →
  ∃ table,
    threshold_sweep y_true y_proba cm start end_ step = Ok table ∧
    map Threshold table = grid.
Proof.
  intros Hbin H0 H1 Hlen Hc Hr Hv Hgrid.
  assert (Hrows : ∃ table,
    Forall2 (fun t row => calculate_business_metrics y_true y_proba t cm = Ok row)
            grid table).
  { clear Hgrid. induction grid as [|t grid [table IH]].
    - exists []. constructor.
    - pose proof (both_classes_always_evaluated _ _ _ t Hbin H0 H1 Hlen Hc Hr Hv)
        as Hok.
      destruct (calculate_business_metrics y_true y_proba t cm) as [row|e] eqn:E;
        [|discriminate].
      exists (row :: table). by constructor. }
  destruct Hrows as [table Hrows]. exists table. split.
  - apply threshold_sweep_ok. by exists grid.
  - by eapply sweep_rows_thresholds.
Qed.

End BothClasses.

(** ** Single-class inputs *)

(** C9 fails on the code.  With labels [0, 0] and scores [0.2, 0.3] the
    default sweep reaches the grid point 0.35, where labels and
    predictions hold the single class 0: the confusion matrix is 1 x 1,
    unpacking it into four counts raises, and the sweep returns no table.
    Grid points before it, and points where nobody is contacted but both
    classes occur, are evaluated. *)
Theorem sweep_aborts_on_single_class :
  threshold_sweep [0; 0] [0.2; 0.33]%float Scenario.cost_matrix
    default_start default_end default_step = Raise unpack_mismatch ∧
  predict [0.2; 0.33]%float 0.35000000000000009%float = [0; 0] ∧
  confusion_matrix [0; 0] [0; 0] = Ok [[2]] ∧
  calculate_business_metrics [0; 0] [0.2; 0.33]%float 0.35000000000000009%float
    Scenario.cost_matrix = Raise unpack_mismatch ∧
  is_ok (calculate_business_metrics [0; 0] [0.2; 0.33]%float
           0.30000000000000004%float Scenario.cost_matrix) = true ∧
  Customers_Contacted <$>
    (match calculate_business_metrics [1; 0] [0.2; 0.33]%float 0.5%float
             Scenario.cost_matrix with
     | Ok r => Some r
     | Raise _ => None
     end) = Some 0.
Proof. repeat split; vm_compute; reflexivity. Qed.

(** ** The first maximum *)

Section Argmax.
Context {A : Type} (leb gtb : A → A → bool).
Hypothesis leb_refl : ∀ x, leb x x = true.
Hypothesis leb_trans : ∀ x y z, leb x y = true → leb y z = true → leb x z = true.
Hypothesis leb_total : ∀ x y, leb x y = false → leb y x = true.
Hypothesis gtb_leb : ∀ x y, gtb x y = negb (leb x y).

Lemma argmax_from_first_maximum (l rest : list A) (best : A) (best_i i : nat) :
  rest = drop i l →
  l !! best_i = Some best →
  (∀ j x, (j < i)%nat → l !! j = Some x → leb x best = true) →
  (∀ j x, (j < best_i)%nat → l !! j = Some x → leb best x = false) →
  first_maximum leb l (argmax_from gtb best best_i i rest).
Proof.
  revert best best_i i.
  induction rest as [|x rest IH]; intros best best_i i Hrest Hbest Hle Hlt; simpl.
  - exists best. split; [done|]. split; [|done].
    intros j y Hj. apply (Hle j); [|done].
    apply lookup_lt_Some in Hj.
    assert (length (drop i l) = 0%nat) as Hlen by by rewrite <- Hrest.
    rewrite length_drop in Hlen. lia.
  - assert (Hi : l !! i = Some x).
    { rewrite <- (Nat.add_0_r i), <- lookup_drop, <- Hrest. done. }
    assert (Hrest' : rest = drop (S i) l).
    { replace (S i) with (i + 1)%nat by lia.
      rewrite <- drop_drop, <- Hrest. done. }
    rewrite gtb_leb. destruct (leb x best) eqn:Exb; simpl.
    + apply IH; [done|done| |done].
      intros j y Hj Hy. destruct (decide (j = i)) as [->|Hne].
      * congruence.
      * apply (Hle j); [lia|done].
    + apply IH; [done|done| |].
      * intros j y Hj Hy. destruct (decide (j = i)) as [->|Hne].
        -- assert (y = x) as -> by congruence. apply leb_refl.
        -- apply leb_trans with best; [apply (Hle j); [lia|done]|].
           by apply leb_total.
      * intros j y Hj Hy. destruct (leb x y) eqn:Exy; [|done].
        rewrite <- Exb. symmetry. apply leb_trans with y; [done|].
        by apply (Hle j).
Qed.

Lemma argmax_first_maximum (l : list A) :
  l ≠ [] → ∃ k, argmax gtb l = Ok k ∧ first_maximum leb l k.
Proof.
  destruct l as [|x l]; [done|]. intros _. simpl. eexists. split; [done|].
  apply argmax_from_first_maximum; try done.
  - intros j y Hj Hy. assert (j = 0)%nat as -> by lia.
    injection Hy as ->. apply leb_refl.
  - intros j y Hj. lia.
Qed.

End Argmax.

(** ** [find_optimal_threshold] *)

Section Optimal.
Context {F : Type} `{NumberLaws F}.

Lemma getcol_inv (sweep_df : list (metrics F)) (name : string) (column : series F) :
  getcol sweep_df name = Ok column →
  (∃ f : metrics F → Z, column = IntSeries (map f sweep_df)) ∨
  (∃ f : metrics F → F, column = NumSeries (map f sweep_df)).
Proof.
  unfold getcol. destruct sweep_df as [|row rows]; [discriminate|].
  repeat match goal with
  | |- context [String.eqb name ?k] => destruct (String.eqb name k)
  end; intros [= <-]; eauto.
Qed.

Lemma idxmax_first_maximum (column : series F) :
  (match column with IntSeries v => v ≠ [] | NumSeries v => v ≠ [] end) →
  ∃ k, idxmax column = Ok k ∧ series_first_maximum column k.
Proof.
  destruct column as [values|values]; intros Hne; simpl.
  - apply (argmax_first_maximum Z.leb); try done.
    + intros x. apply Z.leb_refl.
    + intros x y z Hxy Hyz. apply Z.leb_le in Hxy, Hyz. apply Z.leb_le. lia.
    + intros x y Hxy. apply Z.leb_gt in Hxy. apply Z.leb_le. lia.
    + intros x y. apply Z.ltb_antisym.
  - apply (argmax_first_maximum nleb); try done.
    + apply nleb_refl.
    + apply nleb_trans.
    + apply nleb_total.
    + intros x y. apply nltb_nleb.
Qed.

Lemma optimal_row
    (sweep_df : list (metrics F)) (name : string) (column : series F) :
  sweep_df ≠ [] →
  getcol sweep_df name = Ok column →
  ∃ idx row,
    idxmax column = Ok idx ∧
    loc sweep_df idx = Ok row ∧
    sweep_df !! idx = Some row ∧
    series_first_maximum column idx.
Proof.
  intros Hne Hcol.
  destruct (idxmax_first_maximum column) as (k & Hk & Hmax).
  { apply getcol_inv in Hcol as [[f ->]|[f ->]];
      by destruct sweep_df. }
  assert (Hlt : (k < length sweep_df)%nat).
  { apply getcol_inv in Hcol as [[f ->]|[f ->]];
      destruct Hmax as (m & Hm & _); apply lookup_lt_Some in Hm;
      by rewrite length_map in Hm. }
  apply lookup_lt_is_Some in Hlt as [row Hrow].
  exists k, row. unfold loc. by rewrite Hrow.
Qed.









(** The row of the greatest [Net_ROI], as the comparisons select it. *)
Lemma optimal_net_roi (sweep_df : list (metrics F)) :
  sweep_df ≠ [] →
  ∃ idx row,
    getcol sweep_df "Net_ROI" = Ok (NumSeries (map Net_ROI sweep_df)) ∧
    idxmax (NumSeries (map Net_ROI sweep_df)) = Ok idx ∧
    loc sweep_df idx = Ok row ∧
    sweep_df !! idx = Some row ∧
    (∀ row', row' ∈ sweep_df → (Net_ROI row' <=? Net_ROI row)%num = true) ∧
    (∀ j row', (j < idx)%nat → sweep_df !! j = Some row' →
               (Net_ROI row <=? Net_ROI row')%num = false).
Proof.
  intros Hne.
  assert (Hcol : getcol sweep_df "Net_ROI" = Ok (NumSeries (map Net_ROI sweep_df))).
  { by destruct sweep_df. }
  destruct (optimal_row _ _ _ Hne Hcol)
    as (idx & row & Hidx & Hloc & Hrow & m & Hm & Hle & Hlt).
  change (map Net_ROI sweep_df !! idx = Some m) in Hm.
  rewrite list_lookup_fmap, Hrow in Hm. injection Hm as <-.
  exists idx, row. repeat split; try done.
  - intros row' Hin. apply list_elem_of_lookup in Hin as [j Hj].
    apply (Hle j). by rewrite list_lookup_fmap, Hj.
  - intros j row' Hj Hrow'. apply (Hlt j); [done|].
    by rewrite list_lookup_fmap, Hrow'.
Qed.

End Optimal.

(** ** [compare_models] *)

Section Compare.
Context {F : Type} `{NumberLaws F}.

(** C5. On non-empty tables [compare_models] picks the first argument
    exactly when its greatest [Net_ROI] is strictly greater than the
    second's; on equal maxima it picks the second.  The result carries the
    chosen table, its optimal row and that row's threshold and ROI. *)
Theorem compare_models_strict_preference
    (lr_sweep rf_sweep : list (metrics F)) :
  lr_sweep ≠ [] →
  rf_sweep ≠ [] →
  ∃ lr_optimal rf_optimal,
    find_optimal_threshold lr_sweep "Net_ROI" = Ok lr_optimal ∧
    find_optimal_threshold rf_sweep "Net_ROI" = Ok rf_optimal ∧
    (∀ row, row ∈ lr_sweep → (Net_ROI row <=? Net_ROI lr_optimal)%num = true) ∧
    (∀ row, row ∈ rf_sweep → (Net_ROI row <=? Net_ROI rf_optimal)%num = true) ∧
    compare_models lr_sweep rf_sweep
    = Ok (if (Net_ROI lr_optimal >? Net_ROI rf_optimal)%num
          then {| model := "Logistic Regression";
                  threshold := Threshold lr_optimal;
                  roi := Net_ROI lr_optimal;
                  sweep := lr_sweep;
                  optimal := lr_optimal |}
          else {| model := "Random Forest";
                  threshold := Threshold rf_optimal;
                  roi := Net_ROI rf_optimal;
                  sweep := rf_sweep;
                  optimal := rf_optimal |}) ∧
    ((Net_ROI lr_optimal =? Net_ROI rf_optimal)%num = true →
     compare_models lr_sweep rf_sweep
     = Ok {| model := "Random Forest";
             threshold := Threshold rf_optimal;
             roi := Net_ROI rf_optimal;
             sweep := rf_sweep;
             optimal := rf_optimal |}).
Proof.
  intros Hlr Hrf.
  destruct (optimal_net_roi lr_sweep Hlr)
    as (i & lr_optimal & Hcol1 & Hidx1 & Hloc1 & _ & Hmax1 & _).
  destruct (optimal_net_roi rf_sweep Hrf)
    as (j & rf_optimal & Hcol2 & Hidx2 & Hloc2 & _ & Hmax2 & _).
  exists lr_optimal, rf_optimal.
  assert (Hcmp : compare_models lr_sweep rf_sweep
    = Ok (if (Net_ROI lr_optimal >? Net_ROI rf_optimal)%num
          then {| model := "Logistic Regression";
                  threshold := Threshold lr_optimal;
                  roi := Net_ROI lr_optimal;
                  sweep := lr_sweep;
                  optimal := lr_optimal |}
          else {| model := "Random Forest";
                  threshold := Threshold rf_optimal;
                  roi := Net_ROI rf_optimal;
                  sweep := rf_sweep;
                  optimal := rf_optimal |})).
  { unfold compare_models.
    run_with Hcol1. run_with Hidx1. run_with Hcol2. run_with Hidx2.
    run_with Hloc1. run_with Hloc2.
    by destruct (Net_ROI lr_optimal >? Net_ROI rf_optimal)%num. }
  repeat split; try done.
  - unfold find_optimal_threshold. run_with Hcol1. by run_with Hidx1.
  - unfold find_optimal_threshold. run_with Hcol2. by run_with Hidx2.
  - intros Htie. rewrite Hcmp.
    rewrite neqb_nleb in Htie. apply andb_true_iff in Htie as [Hle _].
    by rewrite nltb_nleb, Hle.
Qed.

End Compare.

(** ** [compare_strategies] *)

Section Strategies.
Context {F : Type} `{NumberLaws F}.




End Strategies.

(** ** The segment cost matrix *)

Section Segment.
Context {F : Type} `{Number F}.

Lemma dict_setitem_last (h : heap F) (d : gmap string F) (k : string) (v : F) :
  dict_setitem (h ++ [d]) (length h) k v = h ++ [<[k := v]> d].
Proof.
  unfold dict_setitem.
  replace (length h) with (length h + 0)%nat at 1 by lia.
  by rewrite alter_app_r.
Qed.

Lemma deref_old (h : heap F) (d' d : gmap string F) (r : ref) :
  h !! r = Some d → deref (h ++ [d']) r = d.
Proof.
  intros Hr. unfold deref. by rewrite lookup_app_l_Some with (x := d).
Qed.

(** C7. The segment cost matrix is a new object: the base matrix and
    every other object of the store keep their items.  The new matrix has
    the items of the base matrix except [CLV], [TP] and [FN]: [CLV] is the
    segment CLV, [TP] and [FN] are recomputed from it with the base
    matrix's [RETENTION_SUCCESS_RATE] and [RETENTION_COST]; [FP], [TN],
    [RETENTION_COST] and [RETENTION_SUCCESS_RATE] are the base values.  It
    is the matrix the segment's sweep runs with. *)
Theorem segment_cost_matrix_frame
    (h : heap F) (base_cost_matrix : ref) (base : gmap string F)
    (segment_clv rate retention_cost : F) :
  h !! base_cost_matrix = Some base →
  base !! "RETENTION_SUCCESS_RATE" = Some rate →
  base !! "RETENTION_COST" = Some retention_cost →
  ∃ (h' : heap F) (seg : ref) (segment : gmap string F),
    segment_cost_matrix segment_clv base_cost_matrix h = (h', Ok seg) ∧
    h !! seg = None ∧
    h' !! seg = Some segment ∧
    (∀ r, r ≠ seg → h' !! r = h !! r) ∧
    h' !! base_cost_matrix = Some base ∧
    segment !! "CLV" = Some segment_clv ∧
    segment !! "TP" = Some (segment_clv * rate - retention_cost)%num ∧
    segment !! "FN" = Some (- (segment_clv * rate))%num ∧
    segment !! "FP" = base !! "FP" ∧
    segment !! "TN" = base !! "TN" ∧
    segment !! "RETENTION_COST" = Some retention_cost ∧
    segment !! "RETENTION_SUCCESS_RATE" = Some rate ∧
    (∀ k, k ≠ "CLV" → k ≠ "TP" → k ≠ "FN" → segment !! k = base !! k) ∧
    (∀ y_true y_proba thresholds,
       segment_threshold_analysis y_true y_proba segment_clv base_cost_matrix
         thresholds h
       = (h', threshold_sweep y_true y_proba segment
                default_start default_end default_step)).
Proof.
  intros Hbase Hrate Hcost.
  assert (Hrun : segment_cost_matrix segment_clv base_cost_matrix h
    = (h ++ [<["FN" := (- (segment_clv * rate))%num]>
              (<["TP" := (segment_clv * rate - retention_cost)%num]>
                (<["CLV" := segment_clv]> base))], Ok (length h))).
  { unfold segment_cost_matrix, mbind, state_bind, st_copy, st_setitem,
      st_getitem, dict_copy, dict_getitem, mret, state_ret.
    assert (Hd : deref h base_cost_matrix = base)
      by (unfold deref; by rewrite Hbase).
    rewrite Hd, dict_setitem_last, (deref_old _ _ _ _ Hbase).
    unfold getitem. rewrite Hrate, Hcost.
    rewrite dict_setitem_last, (deref_old _ _ _ _ Hbase), Hrate.
    by rewrite dict_setitem_last. }
  eexists _, (length h), _. split; [exact Hrun|].
  assert (Hfresh : h !! length h = None) by by apply lookup_ge_None_2.
  assert (Hnew : ∀ d : gmap string F, (h ++ [d]) !! length h = Some d).
  { intros d. by rewrite lookup_app_r, Nat.sub_diag. }
  split; [done|]. split; [apply Hnew|].
  split.
  { intros r Hr. destruct (decide (r < length h)%nat) as [Hlt|Hge].
    - by rewrite lookup_app_l.
    - rewrite !lookup_ge_None_2; [done|lia|rewrite length_app; simpl; lia]. }
  split.
  { rewrite lookup_app_l; [done|]. by eapply lookup_lt_Some. }
  split; [by simplify_map_eq|].
  split; [by simplify_map_eq|].
  split; [by simplify_map_eq|].
  split; [by simplify_map_eq|].
  split; [by simplify_map_eq|].
  split; [by simplify_map_eq|].
  split; [by simplify_map_eq|].
  split; [intros k H1 H2 H3; by simplify_map_eq|].
  intros y_true y_proba thresholds.
  unfold segment_threshold_analysis.
  unfold mbind at 1. unfold state_bind at 1. rewrite Hrun.
  unfold mbind, state_bind, st_deref, st_lift, deref. by rewrite Hnew.
Qed.

End Segment.

(** ** The theorems at work on the scenario tables *)



Lemma compare_models_strict_preference_witness :
  ∃ lr_optimal rf_optimal : metrics Q,
    find_optimal_threshold Scenario.lr_sweep "Net_ROI" = Ok lr_optimal ∧
    find_optimal_threshold Scenario.rf_sweep "Net_ROI" = Ok rf_optimal ∧
    (∀ row, row ∈ Scenario.lr_sweep →
            (Net_ROI row <=? Net_ROI lr_optimal)%num = true) ∧
    (∀ row, row ∈ Scenario.rf_sweep →
            (Net_ROI row <=? Net_ROI rf_optimal)%num = true) ∧
    compare_models Scenario.lr_sweep Scenario.rf_sweep
    = Ok (if (Net_ROI lr_optimal >? Net_ROI rf_optimal)%num
          then {| model := "Logistic Regression";
                  threshold := Threshold lr_optimal;
                  roi := Net_ROI lr_optimal;
                  sweep := Scenario.lr_sweep;
                  optimal := lr_optimal |}
          else {| model := "Random Forest";
                  threshold := Threshold rf_optimal;
                  roi := Net_ROI rf_optimal;
                  sweep := Scenario.rf_sweep;
                  optimal := rf_optimal |}) ∧
    ((Net_ROI lr_optimal =? Net_ROI rf_optimal)%num = true →
     compare_models Scenario.lr_sweep Scenario.rf_sweep
     = Ok {| model := "Random Forest";
             threshold := Threshold rf_optimal;
             roi := Net_ROI rf_optimal;
             sweep := Scenario.rf_sweep;
             optimal := rf_optimal |}).
Proof.
  apply (compare_models_strict_preference Scenario.lr_sweep Scenario.rf_sweep);
    discriminate.
Defined.



Lemma segment_cost_matrix_frame_witness :
  ∃ (h' : heap Q) (seg : ref) (segment : gmap string Q),
    segment_cost_matrix (2400 # 1)%Q 0%nat [Scenario.cost_matrix_q] = (h', Ok seg) ∧
    h' !! 0%nat = Some Scenario.cost_matrix_q ∧
    segment !! "CLV" = Some (2400 # 1)%Q ∧
    segment !! "TP" = Some ((2400 # 1) * (1 # 4) - (50 # 1))%Q ∧
    segment !! "FP" = Scenario.cost_matrix_q !! "FP".
Proof.
  destruct (segment_cost_matrix_frame
              [Scenario.cost_matrix_q] 0%nat Scenario.cost_matrix_q
              (2400 # 1)%Q (1 # 4)%Q (50 # 1)%Q)
    as (h' & seg & segment & Hrun & _ & _ & _ & Hbase & Hclv & Htp & _ & Hfp & _).
  - reflexivity.
  - reflexivity.
  - reflexivity.
  - exists h', seg, segment. auto.
Defined.

(** ** The scenario end to end, in binary64

    Both sweeps have 17 rows and reach their greatest ROI, 750, on several
    thresholds. *)

Example scenario_sweeps :
  map Customers_Contacted Scenario.lr_sweep_f
  = [5; 5; 4; 4; 4; 4; 3; 3; 3; 3; 2; 2; 2; 2; 1; 1; 0] ∧
  map Net_ROI Scenario.lr_sweep_f
  = [650; 650; 700; 700; 700; 700; 750; 750; 750; 750; 500; 500; 500; 500;
     250; 250; 0]%float ∧
  map Customers_Contacted Scenario.rf_sweep_f
  = [5; 5; 5; 5; 4; 4; 4; 3; 3; 2; 2; 2; 1; 1; 1; 1; 1] ∧
  map Net_ROI Scenario.rf_sweep_f
  = [650; 650; 650; 650; 700; 700; 700; 750; 750; 500; 500; 500; 250; 250;
     250; 250; 250]%float.
Proof. repeat split; vm_compute; reflexivity. Qed.

(** The lowest of the tied thresholds is returned. *)
Example scenario_optimal_threshold :
  Threshold <$>
    (match find_optimal_threshold Scenario.lr_sweep_f "Net_ROI" with
     | Ok r => Some r
     | Raise _ => None
     end) = Some 0.40000000000000013%float.
Proof. vm_compute. reflexivity. Qed.

(** Equal maxima: the second argument wins, in either order. *)
Example scenario_model_tie :
  (match compare_models Scenario.lr_sweep_f Scenario.rf_sweep_f with
   | Ok c => Some (model c, threshold c, roi c, sweep c)
   | Raise _ => None
   end)
  = Some ("Random Forest", 0.45000000000000007, 750, Scenario.rf_sweep_f)%float ∧
  (match compare_models Scenario.rf_sweep_f Scenario.lr_sweep_f with
   | Ok c => Some (model c, threshold c, roi c, sweep c)
   | Raise _ => None
   end)
  = Some ("Random Forest", 0.40000000000000013, 750, Scenario.lr_sweep_f)%float.
Proof. split; vm_compute; reflexivity. Qed.

(** The single threshold is looked up with [==]: the grid point printed as
    0.50 is not the double 0.5, and the lookup of 0.5 finds no row. *)
Example scenario_single_threshold_lookup :
  compare_strategies Scenario.lr_sweep_f Scenario.rf_sweep_f 0.5%float
  = Raise IndexError ∧
  (match compare_strategies Scenario.lr_sweep_f Scenario.rf_sweep_f
           0.50000000000000011%float with
   | Ok c => Some (single_total_roi c, segment_total_roi c, improvement c)
   | Raise _ => None
   end) = Some (1500, 1500, 0)%float ∧
  (match compare_strategies Scenario.lr_sweep_f Scenario.rf_sweep_f
           0.6000000000000002%float with
   | Ok c => Some (single_total_roi c, segment_total_roi c, improvement c)
   | Raise _ => None
   end) = Some (1000, 1500, 500)%float.
Proof. repeat split; vm_compute; reflexivity. Qed.

(** * Further properties of the code *)

(** ** Selection never fails on a non-empty table *)

Lemma argmax_from_bound {A} (gtb : A → A → bool) (best : A) (best_i i : nat)
    (values : list A) :
  (best_i < i)%nat →
  (argmax_from gtb best best_i i values < i + length values)%nat.
Proof.
  revert best best_i i. induction values as [|x values IH];
    intros best best_i i Hlt; simpl.
  - lia.
  - destruct (gtb x best).
    + specialize (IH x i (S i)). lia.
    + specialize (IH best best_i (S i)). lia.
Qed.

Lemma argmax_ok {A} (gtb : A → A → bool) (values : list A) :
  values ≠ [] →
  ∃ k, argmax gtb values = Ok k ∧ (k < length values)%nat.
Proof.
  destruct values as [|x values]; [done|]. intros _. simpl.
  eexists. split; [done|].
  pose proof (argmax_from_bound gtb x 0%nat 1%nat values). lia.
Qed.

Section Selection.
Context {F : Type} `{Number F}.

Lemma idxmax_ok (column : series F) (n : nat) :
  n ≠ 0%nat →
  (match column with
   | IntSeries v => length v = n
   | NumSeries v => length v = n
   end) →
  ∃ k, idxmax column = Ok k ∧ (k < n)%nat.
Proof.
  intros Hn Hlen. destruct column as [v|v]; simpl; subst n;
    apply argmax_ok; by destruct v.
Qed.

Lemma getcol_known (sweep_df : list (metrics F)) (name : string) :
  sweep_df ≠ [] →
  name ∈ metric_names →
  ∃ column,
    getcol sweep_df name = Ok column ∧
    (match column with
     | IntSeries v => length v = length sweep_df
     | NumSeries v => length v = length sweep_df
     end).
Proof.
  intros Hne Hin. destruct sweep_df as [|row rows]; [done|].
  unfold metric_names in Hin. rewrite !elem_of_cons, elem_of_nil in Hin.
  repeat (destruct Hin as [->|Hin]; [eexists; split; [reflexivity|];
                                     simpl; by rewrite length_map|]).
  done.
Qed.

Lemma getcol_unknown (sweep_df : list (metrics F)) (name : string) :
  sweep_df = [] ∨ name ∉ metric_names →
  getcol sweep_df name = Raise (KeyError name).
Proof.
  intros [->|Hnot]; [done|]. unfold getcol.
  destruct sweep_df as [|row rows]; [done|].
  unfold metric_names in Hnot. rewrite !not_elem_of_cons in Hnot.
  repeat match goal with
  | |- context [String.eqb name ?k] =>
      let E := fresh in destruct (String.eqb name k) eqn:E;
      [apply String.eqb_eq in E; tauto|]
  end.
  done.
Qed.

Lemma optimal_row_exists (sweep_df : list (metrics F)) (name : string) :
  sweep_df ≠ [] →
  name ∈ metric_names →
  ∃ column idx row,
    getcol sweep_df name = Ok column ∧
    idxmax column = Ok idx ∧
    loc sweep_df idx = Ok row ∧
    sweep_df !! idx = Some row.
Proof.
  intros Hne Hin.
  destruct (getcol_known _ _ Hne Hin) as (column & Hcol & Hlen).
  destruct (idxmax_ok column (length sweep_df)) as (k & Hk & Hlt);
    [by destruct sweep_df|done|].
  apply lookup_lt_is_Some in Hlt as [row Hrow].
  exists column, k, row. unfold loc. by rewrite Hrow.
Qed.

(** X1. [find_optimal_threshold] raises [KeyError] on a name that is no
    column, whatever the table, and raises on a table without rows; on
    any other input it returns, and what it returns is a row of the
    table. *)
Theorem find_optimal_threshold_errors
    (sweep_df : list (metrics F)) (metric : string) :
  (metric ∉ metric_names →
   find_optimal_threshold sweep_df metric = Raise (KeyError metric)) ∧
  (sweep_df = [] → is_ok (find_optimal_threshold sweep_df metric) = false) ∧
  (sweep_df ≠ [] → metric ∈ metric_names →
   ∃ row, find_optimal_threshold sweep_df metric = Ok row ∧ row ∈ sweep_df).
Proof.
  split; [|split].
  - intros Hbad. unfold find_optimal_threshold.
    by rewrite (getcol_unknown _ _ (or_intror Hbad)).
  - by intros ->.
  - intros Hne Hin.
    destruct (optimal_row_exists _ _ Hne Hin)
      as (column & idx & row & Hcol & Hidx & Hloc & Hrow).
    exists row. split.
    + unfold find_optimal_threshold. run_with Hcol. by run_with Hidx.
    + by eapply list_elem_of_lookup_2.
Qed.

Lemma net_roi_is_column : "Net_ROI" ∈ metric_names.
Proof. unfold metric_names. rewrite !elem_of_cons. tauto. Qed.

(** X2. [compare_models] raises when one of the tables has no rows.
    Otherwise it returns one of its two arguments under that argument's
    model name, together with that table's optimal row and the row's
    threshold and ROI. *)
Theorem compare_models_errors (lr_sweep rf_sweep : list (metrics F)) :
  (lr_sweep = [] ∨ rf_sweep = [] →
   is_ok (compare_models lr_sweep rf_sweep) = false) ∧
  (lr_sweep ≠ [] → rf_sweep ≠ [] →
   ∃ c,
     compare_models lr_sweep rf_sweep = Ok c ∧
     (model c = "Logistic Regression" ∧ sweep c = lr_sweep ∨
      model c = "Random Forest" ∧ sweep c = rf_sweep) ∧
     find_optimal_threshold (sweep c) "Net_ROI" = Ok (optimal c) ∧
     optimal c ∈ sweep c ∧
     threshold c = Threshold (optimal c) ∧
     roi c = Net_ROI (optimal c)).
Proof.
  split.
  - intros Hempty. unfold compare_models.
    destruct lr_sweep as [|r1 lr]; [done|].
    destruct Hempty as [?| ->]; [done|].
    destruct (optimal_row_exists (r1 :: lr) "Net_ROI")
      as (column & idx & row & Hcol & Hidx & _); [done|apply net_roi_is_column|].
    run_with Hcol. by run_with Hidx.
  - intros Hlr Hrf.
    destruct (optimal_row_exists _ _ Hlr net_roi_is_column)
      as (c1 & i1 & o1 & Hc1 & Hi1 & Hl1 & Hr1).
    destruct (optimal_row_exists _ _ Hrf net_roi_is_column)
      as (c2 & i2 & o2 & Hc2 & Hi2 & Hl2 & Hr2).
    unfold compare_models.
    run_with Hc1. run_with Hi1. run_with Hc2. run_with Hi2.
    run_with Hl1. run_with Hl2.
    destruct (Net_ROI o1 >? Net_ROI o2)%num; eexists; (split; [reflexivity|]);
      simpl; unfold find_optimal_threshold.
    + split; [by left|]. run_with Hc1. run_with Hi1.
      split; [done|]. split; [by eapply list_elem_of_lookup_2|done].
    + split; [by right|]. run_with Hc2. run_with Hi2.
      split; [done|]. split; [by eapply list_elem_of_lookup_2|done].
Qed.

Lemma roi_at_threshold_absent (sweep_df : list (metrics F)) (t : F) :
  sweep_df ≠ [] →
  Forall (fun row => (Threshold row =? t)%num = false) sweep_df →
  roi_at_threshold sweep_df t = Raise IndexError.
Proof.
  intros Hne Hall. unfold roi_at_threshold.
  destruct sweep_df as [|r0 rows] eqn:E; [done|]. rewrite <- E in *.
  assert (Hf : List.filter (fun row => (Threshold row =? t)%num) sweep_df = []).
  { clear E Hne. induction Hall as [|row l Hrow _ IH]; simpl; [done|].
    by rewrite Hrow. }
  by rewrite Hf.
Qed.

Lemma roi_at_threshold_present (sweep_df : list (metrics F)) (t : F) :
  (∃ row, row ∈ sweep_df ∧ (Threshold row =? t)%num = true) →
  ∃ row, row ∈ sweep_df ∧ (Threshold row =? t)%num = true ∧
         roi_at_threshold sweep_df t = Ok (Net_ROI row).
Proof.
  intros (row & Hin & Ht). unfold roi_at_threshold.
  destruct sweep_df as [|row0 rows] eqn:Edf; [by apply elem_of_nil in Hin|].
  rewrite <- Edf in *. clear Edf.
  destruct (List.filter _ sweep_df) as [|row' rows'] eqn:Ef.
  - exfalso. apply list_elem_of_In in Hin.
    assert (Hin' : In row (List.filter (fun row => (Threshold row =? t)%num) sweep_df))
      by (apply filter_In; by split).
    rewrite Ef in Hin'. done.
  - exists row'.
    assert (Hin' : In row' (List.filter (fun row => (Threshold row =? t)%num) sweep_df))
      by (rewrite Ef; by left).
    apply filter_In in Hin' as [Hin' Ht']. apply list_elem_of_In in Hin'. done.
Qed.

Lemma roi_at_threshold_raises (sweep_df : list (metrics F)) (t : F) :
  sweep_df ≠ [] →
  (∃ x, roi_at_threshold sweep_df t = Ok x) ∨
  roi_at_threshold sweep_df t = Raise IndexError.
Proof.
  intros Hne. unfold roi_at_threshold.
  destruct sweep_df as [|r0 rows] eqn:E; [done|]. rewrite <- E.
  destruct (List.filter _ sweep_df); eauto.
Qed.

(** X3. [compare_strategies] raises when a segment table has no rows,
    and raises [IndexError] when both tables have rows and the single
    threshold is not ([==]) the threshold of a row of the high-value
    table, or of the low-value table; when both tables have such a row
    it returns, with the ROI of such a row of each table as the
    single-threshold ROI. *)
Theorem compare_strategies_errors
    (high_value_sweep low_value_sweep : list (metrics F)) (t : F) :
  (high_value_sweep = [] ∨ low_value_sweep = [] →
   is_ok (compare_strategies high_value_sweep low_value_sweep t) = false) ∧
  (high_value_sweep ≠ [] → low_value_sweep ≠ [] →
   Forall (fun row => (Threshold row =? t)%num = false) high_value_sweep ∨
   Forall (fun row => (Threshold row =? t)%num = false) low_value_sweep →
   compare_strategies high_value_sweep low_value_sweep t = Raise IndexError) ∧
  ((∃ row, row ∈ high_value_sweep ∧ (Threshold row =? t)%num = true) →
   (∃ row, row ∈ low_value_sweep ∧ (Threshold row =? t)%num = true) →
   ∃ c row_high row_low,
     compare_strategies high_value_sweep low_value_sweep t = Ok c ∧
     row_high ∈ high_value_sweep ∧ (Threshold row_high =? t)%num = true ∧
     row_low ∈ low_value_sweep ∧ (Threshold row_low =? t)%num = true ∧
     single_threshold c = t ∧
     single_high_roi c = Net_ROI row_high ∧
     single_low_roi c = Net_ROI row_low ∧
     high_value_optimal c ∈ high_value_sweep ∧
     low_value_optimal c ∈ low_value_sweep).
Proof.
  split; [|split].
  - intros Hempty. unfold compare_strategies.
    destruct high_value_sweep as [|r1 high]; [done|].
    destruct Hempty as [?| ->]; [done|].
    destruct (optimal_row_exists (r1 :: high) "Net_ROI")
      as (column & idx & row & Hcol & Hidx & Hloc & _);
      [done|apply net_roi_is_column|].
    run_with Hcol. run_with Hidx. by run_with Hloc.
  - intros Hhigh Hlow Habsent.
    destruct (optimal_row_exists _ _ Hhigh net_roi_is_column)
      as (c1 & i1 & o1 & Hc1 & Hi1 & Hl1 & Hr1).
    destruct (optimal_row_exists _ _ Hlow net_roi_is_column)
      as (c2 & i2 & o2 & Hc2 & Hi2 & Hl2 & Hr2).
    unfold compare_strategies.
    run_with Hc1. run_with Hi1. run_with Hl1.
    run_with Hc2. run_with Hi2. run_with Hl2.
    destruct Habsent as [Habs|Habs].
    + by run_with (roi_at_threshold_absent _ _ Hhigh Habs).
    + destruct (roi_at_threshold_raises _ t Hhigh) as [[x Hx]|Hx]; run_with Hx.
      * by run_with (roi_at_threshold_absent _ _ Hlow Habs).
      * done.
  - intros Hth Htl.
    assert (Hhigh : high_value_sweep ≠ []).
    { destruct Hth as (row & Hin & _). intros ->. by apply elem_of_nil in Hin. }
    assert (Hlow : low_value_sweep ≠ []).
    { destruct Htl as (row & Hin & _). intros ->. by apply elem_of_nil in Hin. }
    destruct (optimal_row_exists _ _ Hhigh net_roi_is_column)
      as (c1 & i1 & o1 & Hc1 & Hi1 & Hl1 & Hr1).
    destruct (optimal_row_exists _ _ Hlow net_roi_is_column)
      as (c2 & i2 & o2 & Hc2 & Hi2 & Hl2 & Hr2).
    destruct (roi_at_threshold_present _ _ Hth) as (rh & Hrh & Hth' & Hsh).
    destruct (roi_at_threshold_present _ _ Htl) as (rl & Hrl & Htl' & Hsl).
    eexists _, rh, rl. split.
    { unfold compare_strategies.
      run_with Hc1. run_with Hi1. run_with Hl1.
      run_with Hc2. run_with Hi2. run_with Hl2.
      run_with Hsh. run_with Hsl. reflexivity. }
    simpl. repeat split; try done; by eapply list_elem_of_lookup_2.
Qed.

End Selection.

(** ** What is read of a cost matrix *)

Section CostEntries.
Context {F : Type} `{Number F}.

Lemma calculate_business_metrics_entries
    (y_true : list Z) (y_proba : list F) (t : F) (cm cm' : gmap string F) :
  cm !! "RETENTION_COST" = cm' !! "RETENTION_COST" →
  cm !! "RETENTION_SUCCESS_RATE" = cm' !! "RETENTION_SUCCESS_RATE" →
  cm !! "CLV" = cm' !! "CLV" →
  calculate_business_metrics y_true y_proba t cm
  = calculate_business_metrics y_true y_proba t cm'.
Proof.
  intros H1 H2 H3. unfold calculate_business_metrics, getitem.
  by rewrite H1, H2, H3.
Qed.

Lemma sweep_loop_entries
    (y_true : list Z) (y_proba : list F) (cm cm' : gmap string F)
    (thresholds : list F) (results : list (metrics F)) :
  cm !! "RETENTION_COST" = cm' !! "RETENTION_COST" →
  cm !! "RETENTION_SUCCESS_RATE" = cm' !! "RETENTION_SUCCESS_RATE" →
  cm !! "CLV" = cm' !! "CLV" →
  sweep_loop y_true y_proba cm thresholds results
  = sweep_loop y_true y_proba cm' thresholds results.
Proof.
  intros H1 H2 H3. revert results.
  induction thresholds as [|t ts IH]; intros results; simpl; [done|].
  rewrite (calculate_business_metrics_entries _ _ _ cm cm' H1 H2 H3).
  destruct (calculate_business_metrics y_true y_proba t cm'); simpl; [|done].
  apply IH.
Qed.

(** X4. Of the cost matrix only [RETENTION_COST],
    [RETENTION_SUCCESS_RATE] and [CLV] are read: two matrices that agree
    on these three entries, present or missing, give the same outcome of
    [calculate_business_metrics] and of [threshold_sweep], whatever their
    [TP], [FP], [FN] and [TN] entries are. *)
Theorem only_three_entries_read
    (y_true : list Z) (y_proba : list F) (cm cm' : gmap string F) :
  cm !! "RETENTION_COST" = cm' !! "RETENTION_COST" →
  cm !! "RETENTION_SUCCESS_RATE" = cm' !! "RETENTION_SUCCESS_RATE" →
  cm !! "CLV" = cm' !! "CLV" →
  (∀ t, calculate_business_metrics y_true y_proba t cm
        = calculate_business_metrics y_true y_proba t cm') ∧
  (∀ start end_ step,
     threshold_sweep y_true y_proba cm start end_ step
     = threshold_sweep y_true y_proba cm' start end_ step).
Proof.
  intros H1 H2 H3. split.
  - intros t. by apply calculate_business_metrics_entries.
  - intros start end_ step. unfold threshold_sweep.
    destruct (arange start end_ step); simpl; [|done].
    by apply sweep_loop_entries.
Qed.

(** X5. With inputs of equal length that hold two classes, a missing
    entry of the cost matrix raises [KeyError] for the first of
    [RETENTION_COST], [RETENTION_SUCCESS_RATE], [CLV] that is missing. *)
Theorem missing_cost_entry
    (y_true : list Z) (y_proba : list F) (t : F) (cm : gmap string F) :
  length y_true = length y_proba →
  length (unique_labels y_true (predict y_proba t)) = 2%nat →
  (cm !! "RETENTION_COST" = None →
   calculate_business_metrics y_true y_proba t cm
   = Raise (KeyError "RETENTION_COST")) ∧
  (is_Some (cm !! "RETENTION_COST") →
   cm !! "RETENTION_SUCCESS_RATE" = None →
   calculate_business_metrics y_true y_proba t cm
   = Raise (KeyError "RETENTION_SUCCESS_RATE")) ∧
  (is_Some (cm !! "RETENTION_COST") →
   is_Some (cm !! "RETENTION_SUCCESS_RATE") →
   cm !! "CLV" = None →
   calculate_business_metrics y_true y_proba t cm = Raise (KeyError "CLV")).
Proof.
  intros Hlen Hl.
  assert (Hrun : ∀ k : Z * Z * Z * Z → result (metrics F),
    (cm' ← confusion_matrix y_true (predict y_proba t);
     x ← unpack4 (ravel cm'); k x)
    = k (let ps := zip y_true (predict y_proba t) in
         let a := nth 0 (unique_labels y_true (predict y_proba t)) 0 in
         let b := nth 1 (unique_labels y_true (predict y_proba t)) 0 in
         (count_pairs a a ps, count_pairs a b ps, count_pairs b a ps,
          count_pairs b b ps))).
  { intros k. unfold confusion_matrix. unfold predict at 1.
    rewrite length_map, Hlen, Nat.eqb_refl. simpl.
    destruct (unique_labels y_true (predict y_proba t)) as [|a [|b [|c l]]];
      try discriminate.
    reflexivity. }
  unfold calculate_business_metrics. rewrite Hrun. simpl. unfold getitem.
  split; [|split].
  - intros ->. done.
  - intros [rc ->] ->. done.
  - intros [rc ->] [rate ->] ->. done.
Qed.

End CostEntries.

Lemma only_three_entries_read_witness :
  threshold_sweep Scenario.y_true Scenario.y_proba Scenario.cost_matrix
    0.1%float 0.4%float 0.1%float
  = threshold_sweep Scenario.y_true Scenario.y_proba
      (<["TP" := 0%float]> (delete "FN" Scenario.cost_matrix))
      0.1%float 0.4%float 0.1%float.
Proof.
  apply (only_three_entries_read Scenario.y_true Scenario.y_proba
           Scenario.cost_matrix
           (<["TP" := 0%float]> (delete "FN" Scenario.cost_matrix)));
    vm_compute; reflexivity.
Defined.

Lemma missing_cost_entry_witness :
  calculate_business_metrics Scenario.y_true Scenario.y_proba 0.5%float
    (delete "CLV" Scenario.cost_matrix) = Raise (KeyError "CLV").
Proof.
  apply (missing_cost_entry Scenario.y_true Scenario.y_proba 0.5%float
           (delete "CLV" Scenario.cost_matrix)).
  - reflexivity.
  - vm_compute. reflexivity.
  - vm_compute. eexists. reflexivity.
  - vm_compute. eexists. reflexivity.
  - vm_compute. reflexivity.
Defined.

(** ** More on the segment cost matrix *)

Section SegmentMatrix.
Context {F : Type} `{Number F}.

Lemma segment_cost_matrix_run
    (h : heap F) (base_cost_matrix : ref) (base : gmap string F)
    (segment_clv rate retention_cost : F) :
  h !! base_cost_matrix = Some base →
  base !! "RETENTION_SUCCESS_RATE" = Some rate →
  base !! "RETENTION_COST" = Some retention_cost →
  segment_cost_matrix segment_clv base_cost_matrix h
  = (h ++ [<["FN" := (- (segment_clv * rate))%num]>
            (<["TP" := (segment_clv * rate - retention_cost)%num]>
              (<["CLV" := segment_clv]> base))], Ok (length h)).
Proof.
  intros Hbase Hrate Hcost.
  unfold segment_cost_matrix, mbind, state_bind, st_copy, st_setitem,
    st_getitem, dict_copy, dict_getitem, mret, state_ret.
  assert (Hd : deref h base_cost_matrix = base)
    by (unfold deref; by rewrite Hbase).
  rewrite Hd, dict_setitem_last, (deref_old _ _ _ _ Hbase).
  unfold getitem. rewrite Hrate, Hcost.
  rewrite dict_setitem_last, (deref_old _ _ _ _ Hbase), Hrate.
  by rewrite dict_setitem_last.
Qed.

Lemma segment_threshold_analysis_run
    (h h' : heap F) (seg : ref) (segment : gmap string F)
    (y_true : list Z) (y_proba : list F) (segment_clv : F)
    (base_cost_matrix : ref) (thresholds : option (list F)) :
  segment_cost_matrix segment_clv base_cost_matrix h = (h', Ok seg) →
  h' !! seg = Some segment →
  segment_threshold_analysis y_true y_proba segment_clv base_cost_matrix
    thresholds h
  = (h', threshold_sweep y_true y_proba segment
           default_start default_end default_step).
Proof.
  intros Hrun Hseg. unfold segment_threshold_analysis.
  unfold mbind at 1. unfold state_bind at 1. rewrite Hrun.
  unfold mbind, state_bind, st_deref, st_lift, deref. by rewrite Hseg.
Qed.

Lemma lookup_last (h : heap F) (d : gmap string F) :
  (h ++ [d]) !! length h = Some d.
Proof. by rewrite lookup_app_r, Nat.sub_diag. Qed.

(** X6. The sweep of a segment is the default-grid sweep with the base
    matrix in which only [CLV] is replaced by the segment CLV: the [TP]
    and [FN] entries that are recomputed are not read by the sweep, and
    the [thresholds] argument is not used. *)
Theorem segment_sweep_is_base_sweep_at_segment_clv
    (h : heap F) (base_cost_matrix : ref) (base : gmap string F)
    (segment_clv rate retention_cost : F)
    (y_true : list Z) (y_proba : list F) (thresholds : option (list F)) :
  h !! base_cost_matrix = Some base →
  base !! "RETENTION_SUCCESS_RATE" = Some rate →
  base !! "RETENTION_COST" = Some retention_cost →
  (segment_threshold_analysis y_true y_proba segment_clv base_cost_matrix
     thresholds h).2
  = threshold_sweep y_true y_proba (<["CLV" := segment_clv]> base)
      default_start default_end default_step.
Proof.
  intros Hbase Hrate Hcost.
  rewrite (segment_threshold_analysis_run h _ _ _ _ _ _ _ _
             (segment_cost_matrix_run _ _ _ _ _ _ Hbase Hrate Hcost)
             (lookup_last _ _)).
  simpl. unfold threshold_sweep.
  destruct (arange _ _ _); simpl; [|done].
  apply sweep_loop_entries; by simplify_map_eq.
Qed.

(** X7. Built from a matrix of [get_cost_matrix], the segment cost
    matrix is the matrix [get_cost_matrix] builds for the segment CLV
    with the same retention cost and success rate. *)
Theorem segment_cost_matrix_is_get_cost_matrix
    (h : heap F) (base_cost_matrix : ref)
    (clv retention_cost retention_success_rate segment_clv : F) :
  h !! base_cost_matrix
  = Some (get_cost_matrix clv retention_cost retention_success_rate) →
  ∃ (h' : heap F) (seg : ref),
    segment_cost_matrix segment_clv base_cost_matrix h = (h', Ok seg) ∧
    h' !! seg
    = Some (get_cost_matrix segment_clv retention_cost retention_success_rate).
Proof.
  intros Hbase. eexists _, _. split.
  - apply (segment_cost_matrix_run _ _ _ _ retention_success_rate retention_cost
             Hbase); by simplify_map_eq.
  - rewrite lookup_last. reflexivity.
Qed.

(** X8. When the base matrix lacks [RETENTION_SUCCESS_RATE], or has it
    and lacks [RETENTION_COST], building the segment matrix raises
    [KeyError] for that entry and [segment_threshold_analysis] raises it
    without running a sweep; the base matrix and every object that
    existed keep their items. *)
Theorem segment_cost_matrix_missing_entry
    (h : heap F) (base_cost_matrix : ref) (base : gmap string F)
    (segment_clv : F) (key : string) :
  h !! base_cost_matrix = Some base →
  base !! "RETENTION_SUCCESS_RATE" = None ∧ key = "RETENTION_SUCCESS_RATE" ∨
  is_Some (base !! "RETENTION_SUCCESS_RATE") ∧
    base !! "RETENTION_COST" = None ∧ key = "RETENTION_COST" →
  ∃ h' : heap F,
    segment_cost_matrix segment_clv base_cost_matrix h = (h', Raise (KeyError key)) ∧
    (∀ y_true y_proba thresholds,
       segment_threshold_analysis y_true y_proba segment_clv base_cost_matrix
         thresholds h = (h', Raise (KeyError key))) ∧
    (∀ r d, h !! r = Some d → h' !! r = Some d).
Proof.
  intros Hbase Hmissing.
  assert (Hd : deref h base_cost_matrix = base)
    by (unfold deref; by rewrite Hbase).
  assert (Hrun : segment_cost_matrix segment_clv base_cost_matrix h
                 = (h ++ [<["CLV" := segment_clv]> base], Raise (KeyError key))).
  { unfold segment_cost_matrix, mbind, state_bind, st_copy, st_setitem,
      st_getitem, dict_copy, dict_getitem, mret, state_ret.
    rewrite Hd, dict_setitem_last, (deref_old _ _ _ _ Hbase). unfold getitem.
    destruct Hmissing as [[-> ->]|([rate ->] & -> & ->)]; done. }
  eexists. split; [exact Hrun|]. split.
  - intros y_true y_proba thresholds. unfold segment_threshold_analysis.
    unfold mbind at 1. unfold state_bind at 1. by rewrite Hrun.
  - intros r d Hr. by apply lookup_app_l_Some.
Qed.

End SegmentMatrix.

(** ** Counts across thresholds *)

Lemma count_pairs_row (a b c : Z) (ps : list (Z * Z)) :
  a ≠ b →
  Forall (fun tp => tp.2 = a ∨ tp.2 = b) ps →
  count_pairs c a ps + count_pairs c b ps
    = Z.of_nat (length (List.filter (fun tp => tp.1 =? c) ps)).
Proof.
  intros Hab. induction 1 as [|[t p] ps Hp _ IH]; simpl in *; [done|].
  destruct (t =? c) eqn:Et; simpl; rewrite ?Nat2Z.inj_succ, <- ?IH; [|lia].
  destruct Hp as [-> | ->]; rewrite Z.eqb_refl.
  - destruct (a =? b) eqn:E; [apply Z.eqb_eq in E; congruence|]. lia.
  - destruct (b =? a) eqn:E; [apply Z.eqb_eq in E; congruence|]. lia.
Qed.

Lemma filter_zip_fst (c : Z) (l1 l2 : list Z) :
  length l1 = length l2 →
  length (List.filter (fun tp : Z * Z => tp.1 =? c) (zip l1 l2))
    = length (List.filter (fun y => y =? c) l1).
Proof.
  revert l2. induction l1 as [|x l1 IH]; intros [|y l2] Hlen;
    simpl in *; try done.
  injection Hlen as Hlen. destruct (x =? c); simpl; by rewrite IH.
Qed.

Section Counts.
Context {F : Type} `{Number F}.

(** A returned record on labels in {0, 1}, by its cells. *)
Lemma binary_record_cells
    (y_true : list Z) (y_proba : list F) (t : F) (cm : gmap string F)
    (r : metrics F) :
  Forall (fun y => y = 0 ∨ y = 1) y_true →
  calculate_business_metrics y_true y_proba t cm = Ok r →
  let ps := zip y_true (predict y_proba t) in
  length y_true = length y_proba ∧
  TP r = count_pairs 1 1 ps ∧ FP r = count_pairs 0 1 ps ∧
  FN r = count_pairs 1 0 ps ∧ TN r = count_pairs 0 0 ps ∧
  Customers_Contacted r = TP r + FP r.
Proof.
  intros Hbin Hr.
  apply calculate_business_metrics_inv
    in Hr as (a & b & rc & rate & clv & Hlen & Hl & _ & _ & _ & ->).
  destruct (binary_two_labels _ _ _ _ _ Hbin Hl) as [-> ->]. done.
Qed.

Lemma predict_covered (y_true : list Z) (y_proba : list F) (t : F) :
  Forall (fun tp : Z * Z => tp.2 = 0 ∨ tp.2 = 1) (zip y_true (predict y_proba t)).
Proof.
  apply Forall_forall. intros [x y] Hin. simpl.
  apply elem_of_zip_r in Hin. by eapply predict_binary.
Qed.

(** X9. For labels in {0, 1}, [TP + FN] is the number of customers with
    label 1 and [FP + TN] the number with label 0, at every threshold. *)
Theorem actual_class_totals
    (y_true : list Z) (y_proba : list F) (t : F) (cm : gmap string F)
    (r : metrics F) :
  Forall (fun y => y = 0 ∨ y = 1) y_true →
  calculate_business_metrics y_true y_proba t cm = Ok r →
  TP r + FN r = Z.of_nat (length (List.filter (fun y => y =? 1) y_true)) ∧
  FP r + TN r = Z.of_nat (length (List.filter (fun y => y =? 0) y_true)).
Proof.
  intros Hbin Hr.
  destruct (binary_record_cells _ _ _ _ _ Hbin Hr)
    as (Hlen & -> & -> & -> & -> & _).
  assert (Hlen' : length y_true = length (predict y_proba t))
    by (unfold predict; by rewrite length_map).
  split.
  - rewrite Z.add_comm, (count_pairs_row 0 1 1); [|done|apply predict_covered].
    by rewrite filter_zip_fst.
  - rewrite Z.add_comm, (count_pairs_row 0 1 0); [|done|apply predict_covered].
    by rewrite filter_zip_fst.
Qed.

End Counts.

Section Monotone.
Context {F : Type} `{NumberLaws F}.

Lemma predicted_positive_antitone
    (c : Z) (y_true : list Z) (y_proba : list F) (t1 t2 : F) :
  (t1 <=? t2)%num = true →
  count_pairs c 1 (zip y_true (predict y_proba t2))
  ≤ count_pairs c 1 (zip y_true (predict y_proba t1)).
Proof.
  intros Ht. revert y_proba. induction y_true as [|y y_true IH];
    intros [|p y_proba]; simpl; try lia.
  specialize (IH y_proba).
  destruct (p >=? t2)%num eqn:E2.
  - rewrite (nleb_trans _ _ _ Ht E2). lia.
  - destruct (p >=? t1)%num; destruct (y =? c); simpl; lia.
Qed.

(** X10. Raising the threshold never adds contacts: for labels in
    {0, 1} and [t1 <= t2], the record at [t2] has no more customers
    contacted, true positives and false positives than the record at
    [t1], and no fewer false negatives and true negatives. *)
Theorem fewer_contacts_at_higher_threshold
    (y_true : list Z) (y_proba : list F) (t1 t2 : F) (cm : gmap string F)
    (r1 r2 : metrics F) :
  Forall (fun y => y = 0 ∨ y = 1) y_true →
  (t1 <=? t2)%num = true →
  calculate_business_metrics y_true y_proba t1 cm = Ok r1 →
  calculate_business_metrics y_true y_proba t2 cm = Ok r2 →
  Customers_Contacted r2 ≤ Customers_Contacted r1 ∧
  TP r2 ≤ TP r1 ∧ FP r2 ≤ FP r1 ∧ FN r1 ≤ FN r2 ∧ TN r1 ≤ TN r2.
Proof.
  intros Hbin Ht Hr1 Hr2.
  destruct (binary_record_cells _ _ _ _ _ Hbin Hr1)
    as (Hlen & Htp1 & Hfp1 & Hfn1 & Htn1 & Hcc1).
  destruct (binary_record_cells _ _ _ _ _ Hbin Hr2)
    as (_ & Htp2 & Hfp2 & Hfn2 & Htn2 & Hcc2).
  pose proof (predicted_positive_antitone 1 y_true y_proba _ _ Ht) as Htp.
  pose proof (predicted_positive_antitone 0 y_true y_proba _ _ Ht) as Hfp.
  assert (Hlen' : ∀ t, length y_true = length (predict y_proba t))
    by (intros t; unfold predict; by rewrite length_map).
  pose proof (count_pairs_row 0 1 1 _ ltac:(done) (predict_covered y_true y_proba t1))
    as Hp1.
  pose proof (count_pairs_row 0 1 1 _ ltac:(done) (predict_covered y_true y_proba t2))
    as Hp2.
  pose proof (count_pairs_row 0 1 0 _ ltac:(done) (predict_covered y_true y_proba t1))
    as Hn1.
  pose proof (count_pairs_row 0 1 0 _ ltac:(done) (predict_covered y_true y_proba t2))
    as Hn2.
  rewrite filter_zip_fst in Hp1, Hp2, Hn1, Hn2 by apply Hlen'.
  lia.
Qed.

End Monotone.

(** ** How the sweep fails *)

(** X11. [threshold_sweep] raises exactly when [numpy.arange] raises (a
    zero step is a [ZeroDivisionError]) or some call of
    [calculate_business_metrics] does; it then raises what the first
    failing grid point raised, and the rows computed before it are lost. *)
Theorem threshold_sweep_raises {F : Type} `{Number F}
    (y_true : list Z) (y_proba : list F) (cm : gmap string F)
    (start end_ step : F) :
  ((step =? of_int 0)%num = true →
   threshold_sweep y_true y_proba cm start end_ step = Raise ZeroDivisionError) ∧
  (∀ e,
     threshold_sweep y_true y_proba cm start end_ step = Raise e ↔
     arange start end_ step = Raise e ∨
     ∃ before t after,
       arange start end_ step = Ok (before ++ t :: after) ∧
       Forall (fun t' =>
                 is_ok (calculate_business_metrics y_true y_proba t' cm) = true)
              before ∧
       calculate_business_metrics y_true y_proba t cm = Raise e).
Proof.
  split.
  - intros Hstep. unfold threshold_sweep, arange. by rewrite Hstep.
  - intros e. unfold threshold_sweep.
    destruct (arange start end_ step) as [grid|e'] eqn:Egrid;
      cbn [mbind result_bind].
    + rewrite sweep_loop_raise. split.
      * intros (before & t & after & -> & Hbefore & Ht). right.
        by exists before, t, after.
      * intros [?|(before & t & after & [= ->] & Hbefore & Ht)]; [done|].
        by exists before, t, after.
    + split.
      * intros [= ->]. by left.
      * intros [[= ->]|(before & t & after & ? & _)]; done.
Qed.

(** ** Exact arithmetic *)

Lemma arange_Q_empty (start end_ step : Q) :
  (0 < step)%Q → (end_ <= start)%Q → arange start end_ step = Ok [].
Proof.
  intros Hstep Hle. unfold arange.
  assert (Hne : (step =? of_int 0)%num = false).
  { simpl. destruct (Qeq_bool step (inject_Z 0)) eqn:E; [|done].
    exfalso. apply Qeq_bool_iff in E. change (inject_Z 0) with 0%Q in E.
    clear - Hstep E. lra. }
  rewrite Hne. cbn [nceil Q_number nsub ndiv].
  assert (Hc : Qceiling ((end_ - start) / step) ≤ 0).
  { change 0 with (Qceiling 0). apply Qceiling_resp_le.
    apply Qle_shift_div_r; [done|]. clear - Hle. lra. }
  replace (Z.to_nat (Qceiling ((end_ - start) / step))) with 0%nat by lia.
  reflexivity.
Qed.

(** X12. With exact numbers, a positive step and [end <= start] the grid
    is empty: [threshold_sweep] returns the table without rows whatever
    the labels, scores and cost matrix are (they are never looked at),
    and selecting the optimum of that table raises [KeyError]. *)
Theorem empty_grid_sweep
    (y_true : list Z) (y_proba : list Q) (cm : gmap string Q)
    (start end_ step : Q) :
  (0 < step)%Q → (end_ <= start)%Q →
  threshold_sweep y_true y_proba cm start end_ step = Ok [] ∧
  (table ← threshold_sweep y_true y_proba cm start end_ step;
   find_optimal_threshold table "Net_ROI") = Raise (KeyError "Net_ROI").
Proof.
  intros Hstep Hle. unfold threshold_sweep.
  rewrite (arange_Q_empty _ _ _ Hstep Hle). done.
Qed.

Lemma arange_Q_lookup (start end_ step : Q) (grid : list Q) (i : nat) (t : Q) :
  arange start end_ step = Ok grid →
  grid !! i = Some t →
  (t == start + inject_Z (Z.of_nat i) * step)%Q.
Proof.
  unfold arange. destruct (step =? of_int 0)%num; [discriminate|].
  cbn [nceil Q_number]. intros [= <-] Hi.
  rewrite list_lookup_fmap in Hi.
  destruct (seq 0 _ !! i) as [k|] eqn:Ek; [|discriminate].
  apply lookup_seq in Ek as [-> _]. injection Hi as <-.
  apply arange_entry_Q.
Qed.

(** X13. Down an exact sweep with a positive step and labels in {0, 1},
    the customers contacted, the true positives and the false positives
    never increase: a later row has no more of them than an earlier one. *)
Theorem sweep_contacts_never_increase
    (y_true : list Z) (y_proba : list Q) (cm : gmap string Q)
    (start end_ step : Q) (table : list (metrics Q))
    (i j : nat) (ri rj : metrics Q) :
  (0 < step)%Q →
  Forall (fun y => y = 0 ∨ y = 1) y_true →
  threshold_sweep y_true y_proba cm start end_ step = Ok table →
  (i ≤ j)%nat →
  table !! i = Some ri →
  table !! j = Some rj →
  Customers_Contacted rj ≤ Customers_Contacted ri ∧
  TP rj ≤ TP ri ∧ FP rj ≤ FP ri.
Proof.
  intros Hstep Hbin Hsweep Hij Hi Hj.
  apply threshold_sweep_ok in Hsweep as (grid & Hgrid & Hrows).
  destruct (Forall2_lookup_r _ _ _ _ _ Hrows Hi) as (ti & Hti & Hri).
  destruct (Forall2_lookup_r _ _ _ _ _ Hrows Hj) as (tj & Htj & Hrj).
  assert (Hle : (ti <=? tj)%num = true).
  { cbn [nleb Q_number]. apply Qle_bool_iff.
    rewrite (arange_Q_lookup _ _ _ _ _ _ Hgrid Hti).
    rewrite (arange_Q_lookup _ _ _ _ _ _ Hgrid Htj).
    assert (Hz : (inject_Z (Z.of_nat i) <= inject_Z (Z.of_nat j))%Q)
      by (rewrite <- Zle_Qle; lia).
    clear - Hz Hstep. nra. }
  destruct (binary_record_cells _ _ _ _ _ Hbin Hri)
    as (_ & Htp1 & Hfp1 & _ & _ & Hcc1).
  destruct (binary_record_cells _ _ _ _ _ Hbin Hrj)
    as (_ & Htp2 & Hfp2 & _ & _ & Hcc2).
  pose proof (predicted_positive_antitone 1 y_true y_proba _ _ Hle).
  pose proof (predicted_positive_antitone 0 y_true y_proba _ _ Hle).
  lia.
Qed.

(** ** Money and rates in exact arithmetic *)

Lemma inject_Z_nonneg (z : Z) : 0 ≤ z → (0 <= inject_Z z)%Q.
Proof. intros Hz. change 0%Q with (inject_Z 0). by rewrite <- Zle_Qle. Qed.

Lemma ratio_in_unit_interval (a b : Z) :
  0 ≤ a → 0 ≤ b →
  (0 <= (if 0 <? a + b then inject_Z a / inject_Z (a + b) else inject_Z 0)
   <= 1)%Q.
Proof.
  intros Ha Hb. destruct (0 <? a + b) eqn:E.
  - apply Z.ltb_lt in E.
    assert (Hpos : (0 < inject_Z (a + b))%Q).
    { change 0%Q with (inject_Z 0). rewrite <- Zlt_Qlt. lia. }
    split.
    + apply Qle_shift_div_l; [done|]. rewrite Qmult_0_l.
      by apply inject_Z_nonneg.
    + apply Qle_shift_div_r; [done|]. rewrite Qmult_1_l.
      rewrite <- Zle_Qle. lia.
  - split; [apply Qle_refl|done].
Qed.

(** X14. With exact numbers, [Precision] and [Recall] of every returned
    record lie between 0 and 1. *)
Theorem precision_recall_bounds
    (y_true : list Z) (y_proba : list Q) (t : Q) (cm : gmap string Q)
    (r : metrics Q) :
  calculate_business_metrics y_true y_proba t cm = Ok r →
  (0 <= Precision r <= 1)%Q ∧ (0 <= Recall r <= 1)%Q.
Proof.
  intros Hr.
  apply calculate_business_metrics_inv
    in Hr as (a & b & rc & rate & clv & _ & _ & _ & _ & _ & ->).
  cbn [Precision Recall of_int ndiv Q_number].
  split; apply ratio_in_unit_interval; apply count_pairs_nonneg.
Qed.

(** X15. With exact numbers and a cost matrix of [get_cost_matrix], the
    net values of the matrix account for the money columns: [Net_ROI] is
    the [TP] count at the matrix's [TP] value plus the [FP] count at its
    [FP] value, and [Opportunity_Cost] is the [FN] count at minus its
    [FN] value. *)
Theorem net_roi_by_matrix_values
    (y_true : list Z) (y_proba : list Q) (t : Q)
    (clv retention_cost retention_success_rate : Q) (r : metrics Q) :
  calculate_business_metrics y_true y_proba t
    (get_cost_matrix clv retention_cost retention_success_rate) = Ok r →
  ∃ tp_value fp_value fn_value tn_value : Q,
    let cm := get_cost_matrix clv retention_cost retention_success_rate in
    cm !! "TP" = Some tp_value ∧ cm !! "FP" = Some fp_value ∧
    cm !! "FN" = Some fn_value ∧ cm !! "TN" = Some tn_value ∧
    (Net_ROI r == inject_Z (TP r) * tp_value + inject_Z (FP r) * fp_value)%Q ∧
    (Opportunity_Cost r == - (inject_Z (FN r) * fn_value))%Q ∧
    (Net_ROI r - Opportunity_Cost r
     == inject_Z (TP r) * tp_value + inject_Z (FP r) * fp_value
        + inject_Z (FN r) * fn_value + inject_Z (TN r) * tn_value)%Q.
Proof.
  intros Hr.
  apply calculate_business_metrics_inv
    in Hr as (a & b & rc & rate & clv' & _ & _ & H1 & H2 & H3 & ->).
  unfold get_cost_matrix in H1, H2, H3. simplify_map_eq.
  eexists _, _, _, _. cbn zeta.
  split; [by simplify_map_eq|]. split; [by simplify_map_eq|].
  split; [by simplify_map_eq|]. split; [by simplify_map_eq|].
  cbn [Net_ROI Opportunity_Cost TP FP FN TN of_int nadd nsub nmul nopp Q_number].
  rewrite inject_Z_plus. change (inject_Z 0) with 0%Q.
  repeat split; ring.
Qed.

(** X16. With exact numbers, labels in {0, 1}, a retention cost that is
    not negative and [t1 <= t2], the record at [t2] has no greater
    [Recall] and no greater [Retention_Cost] than the record at [t1]. *)
Theorem recall_and_cost_antitone
    (y_true : list Z) (y_proba : list Q) (t1 t2 : Q) (cm : gmap string Q)
    (retention_cost : Q) (r1 r2 : metrics Q) :
  Forall (fun y => y = 0 ∨ y = 1) y_true →
  (t1 <= t2)%Q →
  cm !! "RETENTION_COST" = Some retention_cost →
  (0 <= retention_cost)%Q →
  calculate_business_metrics y_true y_proba t1 cm = Ok r1 →
  calculate_business_metrics y_true y_proba t2 cm = Ok r2 →
  (Recall r2 <= Recall r1)%Q ∧ (Retention_Cost r2 <= Retention_Cost r1)%Q.
Proof.
  intros Hbin Ht Hcost Hrc Hr1 Hr2.
  assert (Hle : (t1 <=? t2)%num = true) by by apply Qle_bool_iff.
  pose proof (predicted_positive_antitone 1 y_true y_proba _ _ Hle) as Htp.
  pose proof (predicted_positive_antitone 0 y_true y_proba _ _ Hle) as Hfp.
  assert (Hlen : length y_true = length y_proba).
  { by apply calculate_business_metrics_inv
      in Hr1 as (? & ? & ? & ? & ? & Hlen & _). }
  assert (Hlen' : ∀ t, length y_true = length (predict y_proba t))
    by (intros t; unfold predict; by rewrite length_map).
  pose proof (count_pairs_row 0 1 1 _ ltac:(done) (predict_covered y_true y_proba t1))
    as Hp1.
  pose proof (count_pairs_row 0 1 1 _ ltac:(done) (predict_covered y_true y_proba t2))
    as Hp2.
  rewrite filter_zip_fst in Hp1, Hp2 by apply Hlen'.
  apply calculate_business_metrics_inv
    in Hr1 as (a1 & b1 & rc1 & rate1 & clv1 & _ & Hl1 & Hc1 & _ & _ & ->).
  apply calculate_business_metrics_inv
    in Hr2 as (a2 & b2 & rc2 & rate2 & clv2 & _ & Hl2 & Hc2 & _ & _ & ->).
  destruct (binary_two_labels _ _ _ _ _ Hbin Hl1) as [-> ->].
  destruct (binary_two_labels _ _ _ _ _ Hbin Hl2) as [-> ->].
  assert (rc1 = retention_cost) as -> by congruence.
  assert (rc2 = retention_cost) as -> by congruence.
  cbn [Recall Retention_Cost of_int ndiv nmul Q_number].
  set (tp1 := count_pairs 1 1 (zip y_true (predict y_proba t1))) in *.
  set (tp2 := count_pairs 1 1 (zip y_true (predict y_proba t2))) in *.
  set (fn1 := count_pairs 1 0 (zip y_true (predict y_proba t1))) in *.
  set (fn2 := count_pairs 1 0 (zip y_true (predict y_proba t2))) in *.
  set (fp1 := count_pairs 0 1 (zip y_true (predict y_proba t1))) in *.
  set (fp2 := count_pairs 0 1 (zip y_true (predict y_proba t2))) in *.
  assert (Hsame : tp2 + fn2 = tp1 + fn1) by lia.
  assert (0 ≤ tp2) by apply count_pairs_nonneg.
  split.
  - rewrite Hsame. destruct (0 <? tp1 + fn1) eqn:E; [|apply Qle_refl].
    apply Z.ltb_lt in E.
    assert (Hpos : (0 < inject_Z (tp1 + fn1))%Q).
    { change 0%Q with (inject_Z 0). rewrite <- Zlt_Qlt. lia. }
    apply Qle_shift_div_r; [done|].
    assert (E' : (inject_Z tp1 / inject_Z (tp1 + fn1) * inject_Z (tp1 + fn1)
                  == inject_Z tp1)%Q).
    { field. intros E0. rewrite E0 in Hpos. by apply Qlt_irrefl in Hpos. }
    rewrite E'. rewrite <- Zle_Qle. lia.
  - apply Qmult_le_compat_r; [|done]. rewrite <- Zle_Qle. lia.
Qed.

(** ** Customer tables in exact arithmetic *)

Lemma foldl_Qplus (a : Q) (l : list Q) :
  (foldl Qplus a l == a + foldl Qplus 0 l)%Q.
Proof.
  revert a. induction l as [|x l IH]; intros a; simpl.
  - ring.
  - rewrite IH, (IH (0 + x)%Q). ring.
Qed.

Lemma series_sum_cons (x : Q) (l : list Q) :
  (series_sum (x :: l) == x + series_sum l)%Q.
Proof.
  unfold series_sum. simpl. rewrite foldl_Qplus.
  change (inject_Z 0) with 0%Q. ring.
Qed.

Lemma series_sum_nil : (series_sum (@nil Q) == 0)%Q.
Proof. reflexivity. Qed.

Lemma series_sum_split (f : Q → bool) (l : list Q) :
  (series_sum l
   == series_sum (List.filter f l)
      + series_sum (List.filter (fun x => negb (f x)) l))%Q.
Proof.
  induction l as [|x l IH]; simpl.
  - rewrite series_sum_nil. ring.
  - destruct (f x); simpl; rewrite !series_sum_cons, IH; ring.
Qed.

Lemma series_sum_lower (m : Q) (l : list Q) :
  Forall (fun x => (m <= x)%Q) l →
  (inject_Z (Z.of_nat (length l)) * m <= series_sum l)%Q.
Proof.
  induction 1 as [|x l Hx _ IH]; simpl length.
  - rewrite series_sum_nil. change (inject_Z (Z.of_nat 0)) with 0%Q.
    rewrite Qmult_0_l. apply Qle_refl.
  - rewrite series_sum_cons, Nat2Z.inj_succ. unfold Z.succ.
    rewrite inject_Z_plus. change (inject_Z 1) with 1%Q.
    clear - Hx IH. nra.
Qed.

Lemma series_sum_upper (m : Q) (l : list Q) :
  Forall (fun x => (x <= m)%Q) l →
  (series_sum l <= inject_Z (Z.of_nat (length l)) * m)%Q.
Proof.
  induction 1 as [|x l Hx _ IH]; simpl length.
  - rewrite series_sum_nil. change (inject_Z (Z.of_nat 0)) with 0%Q.
    rewrite Qmult_0_l. apply Qle_refl.
  - rewrite series_sum_cons, Nat2Z.inj_succ. unfold Z.succ.
    rewrite inject_Z_plus. change (inject_Z 1) with 1%Q.
    clear - Hx IH. nra.
Qed.

Lemma length_pos_Q {A} (l : list A) :
  l ≠ [] → (0 < inject_Z (Z.of_nat (length l)))%Q.
Proof.
  intros Hne. change 0%Q with (inject_Z 0). rewrite <- Zlt_Qlt.
  destruct l; [done|]. simpl length. lia.
Qed.

(** The mean times the count is the sum. *)
Lemma series_mean_sum (l : list Q) :
  l ≠ [] →
  (inject_Z (Z.of_nat (length l)) * series_mean l == series_sum l)%Q.
Proof.
  intros Hne. unfold series_mean. cbn [ndiv of_int Q_number].
  pose proof (length_pos_Q l Hne) as Hpos.
  field. intros E. rewrite E in Hpos. by apply Qlt_irrefl in Hpos.
Qed.

Lemma series_mean_lower (m : Q) (l : list Q) :
  l ≠ [] → Forall (fun x => (m <= x)%Q) l → (m <= series_mean l)%Q.
Proof.
  intros Hne Hall. pose proof (length_pos_Q l Hne) as Hpos.
  pose proof (series_sum_lower m l Hall) as Hs.
  rewrite <- (series_mean_sum l Hne) in Hs.
  clear - Hpos Hs. nra.
Qed.

Lemma series_mean_upper (m : Q) (l : list Q) :
  l ≠ [] → Forall (fun x => (x <= m)%Q) l → (series_mean l <= m)%Q.
Proof.
  intros Hne Hall. pose proof (length_pos_Q l Hne) as Hpos.
  pose proof (series_sum_upper m l Hall) as Hs.
  rewrite <- (series_mean_sum l Hne) in Hs.
  clear - Hpos Hs. nra.
Qed.

Lemma filter_length_split {A} (f : A → bool) (l : list A) :
  length l = (length (List.filter f l)
              + length (List.filter (fun x => negb (f x)) l))%nat.
Proof.
  induction l as [|x l IH]; simpl; [done|].
  destruct (f x); simpl; lia.
Qed.

Section Segments.
Context {F : Type} `{Number F}.

(** The rows of a segment of a tagged table, by their charges. *)
Lemma segment_rows (df : list (customer F)) (charge_column : customer F → F) :
  let tagged := (create_value_segments df charge_column).1 in
  let charge_median := (create_value_segments df charge_column).2 in
  map MonthlyCharges
    (List.filter (fun c => String.eqb (value_segment c) "High-Value") tagged)
  = map MonthlyCharges
      (List.filter (fun c => (charge_column c >=? charge_median)%num) df) ∧
  map MonthlyCharges
    (List.filter (fun c => String.eqb (value_segment c) "Low-Value") tagged)
  = map MonthlyCharges
      (List.filter (fun c => negb (charge_column c >=? charge_median)%num) df) ∧
  map MonthlyCharges tagged = map MonthlyCharges df.
Proof.
  unfold create_value_segments. cbn [fst snd].
  generalize (series_median (map charge_column df)) as m. intros m.
  induction df as [|c df (IH1 & IH2 & IH3)]; [done|].
  assert (Ehh : String.eqb "High-Value" "High-Value" = true) by reflexivity.
  assert (Ehl : String.eqb "High-Value" "Low-Value" = false) by reflexivity.
  assert (Elh : String.eqb "Low-Value" "High-Value" = false) by reflexivity.
  assert (Ell : String.eqb "Low-Value" "Low-Value" = true) by reflexivity.
  cbn [map List.filter value_segment MonthlyCharges].
  destruct (charge_column c >=? m)%num;
    rewrite ?Ehh, ?Ehl, ?Elh, ?Ell; cbn [negb map MonthlyCharges];
    rewrite ?IH1, ?IH2, ?IH3; done.
Qed.

End Segments.

Lemma filter_map_charges (f : Q → bool) (df : list (customer Q)) :
  map MonthlyCharges (List.filter (fun c => f (MonthlyCharges c)) df)
  = List.filter f (map MonthlyCharges df).
Proof.
  induction df as [|c df IH]; simpl; [done|].
  destruct (f (MonthlyCharges c)); simpl; by rewrite IH.
Qed.

(** X17. In exact arithmetic, for a table tagged by [create_value_segments]
    on its monthly charges, with customers in both segments and a horizon
    that is not negative: the CLV of the whole table lies between the
    Low-Value CLV and the High-Value CLV, and the two segment CLVs
    weighted by the sizes of the segments add up to the CLV of the whole
    table times its size. *)
Theorem segment_clv_brackets_clv
    (df : list (customer Q)) (avg_remaining_months : Z) :
  let tagged := (create_value_segments df MonthlyCharges).1 in
  let high :=
    List.filter (fun c => String.eqb (value_segment c) "High-Value") tagged in
  let low :=
    List.filter (fun c => String.eqb (value_segment c) "Low-Value") tagged in
  high ≠ [] → low ≠ [] → 0 ≤ avg_remaining_months →
  length tagged = (length high + length low)%nat ∧
  (calculate_segment_clv tagged "Low-Value" avg_remaining_months
   <= calculate_clv df avg_remaining_months)%Q ∧
  (calculate_clv df avg_remaining_months
   <= calculate_segment_clv tagged "High-Value" avg_remaining_months)%Q ∧
  (inject_Z (Z.of_nat (length high))
     * calculate_segment_clv tagged "High-Value" avg_remaining_months
   + inject_Z (Z.of_nat (length low))
     * calculate_segment_clv tagged "Low-Value" avg_remaining_months
   == inject_Z (Z.of_nat (length df)) * calculate_clv df avg_remaining_months)%Q.
Proof.
  intros tagged high low Hhigh Hlow Hmonths.
  destruct (segment_rows df MonthlyCharges) as (Eh & El & Eall).
  fold tagged in Eh, El, Eall. fold high in Eh. fold low in El.
  set (m := (create_value_segments df MonthlyCharges).2) in *.
  set (xs := map MonthlyCharges df) in *.
  rewrite (filter_map_charges (fun x => Qle_bool m x)) in Eh.
  rewrite (filter_map_charges (fun x => negb (Qle_bool m x))) in El.
  fold xs in Eh, El.
  set (H := List.filter (fun x => Qle_bool m x) xs) in *.
  set (L := List.filter (fun x => negb (Qle_bool m x)) xs) in *.
  assert (HneH : H ≠ []).
  { intros E. rewrite E in Eh. apply Hhigh. by destruct high. }
  assert (HneL : L ≠ []).
  { intros E. rewrite E in El. apply Hlow. by destruct low. }
  assert (Hne : xs ≠ []).
  { intros E. apply HneH. unfold H. by rewrite E. }
  assert (Hlh : length high = length H)
    by (by rewrite <- Eh, length_map).
  assert (Hll : length low = length L)
    by (by rewrite <- El, length_map).
  assert (Hlen : length xs = (length H + length L)%nat)
    by apply filter_length_split.
  assert (Hldf : length df = length xs) by (unfold xs; by rewrite length_map).
  assert (Hlt : length tagged = length xs)
    by (by rewrite <- Eall, length_map).
  assert (HmH : (m <= series_mean H)%Q).
  { apply series_mean_lower; [done|]. apply Forall_forall. intros x Hx.
    apply list_elem_of_In, filter_In in Hx as [_ Hx]. by apply Qle_bool_iff. }
  assert (HmL : (series_mean L <= m)%Q).
  { apply series_mean_upper; [done|]. apply Forall_forall. intros x Hx.
    apply list_elem_of_In, filter_In in Hx as [_ Hx].
    apply negb_true_iff in Hx.
    destruct (Qlt_le_dec x m) as [Hlt'|Hle]; [by apply Qlt_le_weak|].
    apply Qle_bool_iff in Hle. congruence. }
  pose proof (series_mean_sum H HneH) as HsH.
  pose proof (series_mean_sum L HneL) as HsL.
  pose proof (series_mean_sum xs Hne) as Hs.
  pose proof (series_sum_split (fun x => Qle_bool m x) xs) as Hsplit.
  fold H L in Hsplit.
  pose proof (length_pos_Q H HneH) as HpH.
  pose proof (length_pos_Q L HneL) as HpL.
  assert (Hn : (inject_Z (Z.of_nat (length xs))
                == inject_Z (Z.of_nat (length H)) + inject_Z (Z.of_nat (length L)))%Q).
  { rewrite Hlen, Nat2Z.inj_add, inject_Z_plus. reflexivity. }
  pose proof (inject_Z_nonneg _ Hmonths) as Hk.
  unfold calculate_segment_clv, calculate_clv.
  fold tagged high low xs. rewrite Eh, El, Hlh, Hll, Hldf.
  cbn [nmul of_int Q_number].
  set (k := inject_Z avg_remaining_months) in *.
  set (nH := inject_Z (Z.of_nat (length H))) in *.
  set (nL := inject_Z (Z.of_nat (length L))) in *.
  set (n := inject_Z (Z.of_nat (length xs))) in *.
  set (mH := series_mean H) in *. set (mL := series_mean L) in *.
  set (M := series_mean xs) in *.
  assert (HM : (n * M == nH * mH + nL * mL)%Q).
  { rewrite Hs, Hsplit, HsH, HsL. reflexivity. }
  assert (HML : (mL <= M)%Q).
  { clear - HM Hn HpH HpL HmH HmL. nra. }
  assert (HMH : (M <= mH)%Q).
  { clear - HM Hn HpH HpL HmH HmL. nra. }
  split; [lia|]. split; [|split].
  - clear - HML Hk. nra.
  - clear - HMH Hk. nra.
  - apply Qeq_trans with ((n * M) * k)%Q; [rewrite HM; ring|ring].
Qed.

(** ** The median split *)

Lemma insert_sorted_perm {F : Type} `{Number F} (x : F) (l : list F) :
  insert_sorted x l ≡ₚ x :: l.
Proof.
  induction l as [|y l IH]; simpl; [done|].
  destruct (x <=? y)%num; [done|].
  rewrite IH. apply perm_swap.
Qed.

Lemma sort_values_perm {F : Type} `{Number F} (l : list F) :
  sort_values l ≡ₚ l.
Proof.
  unfold sort_values. induction l as [|x l IH]; simpl; [done|].
  by rewrite insert_sorted_perm, IH.
Qed.

Lemma insert_sorted_Q (x : Q) (l : list Q) :
  StronglySorted Qle l → StronglySorted Qle (insert_sorted x l).
Proof.
  induction 1 as [|y l Hs IH Hy]; simpl.
  - repeat constructor.
  - destruct (Qle_bool x y) eqn:E.
    + apply Qle_bool_iff in E. constructor; [by constructor|].
      constructor; [done|]. eapply Forall_impl; [exact Hy|].
      intros z Hz. by apply Qle_trans with y.
    + assert (Hyx : (y <= x)%Q).
      { destruct (Qlt_le_dec y x) as [Hlt|Hle]; [by apply Qlt_le_weak|].
        apply Qle_bool_iff in Hle. congruence. }
      constructor; [done|].
      rewrite (insert_sorted_perm x l). by constructor.
Qed.

Lemma sort_values_Q (l : list Q) : StronglySorted Qle (sort_values l).
Proof.
  unfold sort_values. induction l as [|x l IH]; simpl.
  - constructor.
  - by apply insert_sorted_Q.
Qed.

Lemma sorted_lookup_le (s : list Q) (i j : nat) (a b : Q) :
  StronglySorted Qle s → (i < j)%nat →
  s !! i = Some a → s !! j = Some b → (a <= b)%Q.
Proof.
  intros Hs. revert i j. induction Hs as [|y s Hs IH Hy]; intros i j Hij Hi Hj.
  - done.
  - destruct j as [|j]; [lia|]. destruct i as [|i]; simpl in *.
    + injection Hi as <-. eapply Forall_forall in Hy; [exact Hy|].
      by eapply list_elem_of_lookup_2.
    + apply (IH i j); [lia|done|done].
Qed.

(** In a sorted list fewer than [k] entries are below a bound that the
    entry at [k] reaches. *)
Lemma sorted_count_below (m : Q) (s : list Q) (k : nat) (v : Q) :
  StronglySorted Qle s →
  s !! k = Some v → (m <= v)%Q →
  (length (List.filter (fun x => negb (Qle_bool m x)) s) ≤ k)%nat.
Proof.
  intros Hs. revert k. induction Hs as [|y s Hs IH Hy]; intros k Hk Hm.
  - done.
  - destruct k as [|k]; simpl in Hk.
    + injection Hk as ->.
      assert (Hall : Forall (fun x => (m <= x)%Q) (v :: s)).
      { constructor; [done|]. eapply Forall_impl; [exact Hy|].
        intros z Hz. by apply Qle_trans with v. }
      clear - Hall. induction Hall as [|x l Hx _ IH]; [done|].
      simpl. apply Qle_bool_iff in Hx. by rewrite Hx.
    + specialize (IH k Hk Hm). simpl.
      destruct (negb (Qle_bool m y)); simpl; lia.
Qed.

Lemma filter_length_perm {A} (f : A → bool) (l l' : list A) :
  l ≡ₚ l' → length (List.filter f l) = length (List.filter f l').
Proof.
  induction 1 as [|x l l' _ IH|x y l|l1 l2 l3 _ IH1 _ IH2]; simpl.
  - done.
  - destruct (f x); simpl; by rewrite IH.
  - destruct (f x), (f y); done.
  - by rewrite IH1.
Qed.

(** The median is reached by the upper middle entry of the sorted values. *)
Lemma series_median_upper_middle (xs : list Q) :
  xs ≠ [] →
  ∃ v, sort_values xs !! (length xs / 2)%nat = Some v ∧
       (series_median xs <= v)%Q.
Proof.
  intros Hne.
  pose proof (sort_values_perm xs) as Hperm.
  pose proof (Permutation_length Hperm) as Hlen.
  pose proof (sort_values_Q xs) as Hs.
  assert (Hn : (0 < length xs)%nat) by (destruct xs; [done|simpl; lia]).
  assert (Hhalf : (length xs / 2 < length (sort_values xs))%nat).
  { rewrite Hlen. apply Nat.div_lt; lia. }
  apply lookup_lt_is_Some in Hhalf as [v Hv]. exists v. split; [done|].
  unfold series_median. destruct (length xs) as [|n'] eqn:En; [lia|].
  rewrite <- En in *. rewrite (nth_lookup_Some _ _ _ _ Hv).
  destruct (Nat.even (length xs)) eqn:Eeven; [|apply Qle_refl].
  assert (Hprev : (length xs / 2 - 1 < length (sort_values xs))%nat).
  { rewrite Hlen. pose proof (Nat.div_lt (length xs) 2). lia. }
  apply lookup_lt_is_Some in Hprev as [a Ha].
  rewrite (nth_lookup_Some _ _ _ _ Ha).
  assert (Hhalf_pos : (0 < length xs / 2)%nat).
  { apply Nat.even_spec in Eeven as [q Hq]. rewrite Hq.
    rewrite Nat.mul_comm, Nat.div_mul by done. lia. }
  assert (Hav : (a <= v)%Q).
  { apply (sorted_lookup_le _ (length xs / 2 - 1) (length xs / 2) _ _ Hs);
      [lia|done|done]. }
  cbn [nadd ndiv of_int Q_number]. apply Qle_shift_div_r; [done|].
  change (inject_Z 2) with 2%Q. clear - Hav. lra.
Qed.

(** X18. In exact arithmetic, [create_value_segments] on a table with
    rows tags every row High-Value or Low-Value, keeps the rows' charges
    and order, and puts at most half of the rows in the Low-Value
    segment: the High-Value segment is never empty. *)
Theorem low_value_at_most_half
    (df : list (customer Q)) (charge_column : customer Q → Q) :
  df ≠ [] →
  let tagged := (create_value_segments df charge_column).1 in
  let high :=
    List.filter (fun c => String.eqb (value_segment c) "High-Value") tagged in
  let low :=
    List.filter (fun c => String.eqb (value_segment c) "Low-Value") tagged in
  map MonthlyCharges tagged = map MonthlyCharges df ∧
  Forall (fun c => value_segment c = "High-Value"
                   ∨ value_segment c = "Low-Value") tagged ∧
  length df = (length high + length low)%nat ∧
  (2 * length low ≤ length df)%nat ∧
  high ≠ [].
Proof.
  intros Hne tagged high low.
  set (m := series_median (map charge_column df)).
  assert (Hrows : ∀ l : list (customer Q),
    let tg := map (fun c =>
                {| MonthlyCharges := MonthlyCharges c;
                   value_segment :=
                     if Qle_bool m (charge_column c)
                     then "High-Value" else "Low-Value" |}) l in
    map MonthlyCharges tg = map MonthlyCharges l ∧
    Forall (fun c => value_segment c = "High-Value"
                     ∨ value_segment c = "Low-Value") tg ∧
    length (List.filter (fun c => String.eqb (value_segment c) "High-Value") tg)
    = length (List.filter (fun x => Qle_bool m x) (map charge_column l)) ∧
    length (List.filter (fun c => String.eqb (value_segment c) "Low-Value") tg)
    = length (List.filter (fun x => negb (Qle_bool m x)) (map charge_column l))).
  { assert (Ehh : String.eqb "High-Value" "High-Value" = true) by reflexivity.
    assert (Ehl : String.eqb "High-Value" "Low-Value" = false) by reflexivity.
    assert (Elh : String.eqb "Low-Value" "High-Value" = false) by reflexivity.
    assert (Ell : String.eqb "Low-Value" "Low-Value" = true) by reflexivity.
    induction l as [|c l (IH1 & IH2 & IH3 & IH4)]; [by repeat split|].
    cbn zeta in *. cbn [map List.filter value_segment MonthlyCharges].
    destruct (Qle_bool m (charge_column c));
      rewrite ?Ehh, ?Ehl, ?Elh, ?Ell; cbn [negb length];
      rewrite ?IH1, ?IH3, ?IH4;
      (split; [done|]); (split; [constructor; [auto|done]|]); done. }
  destruct (Hrows df) as (Hcharges & Htags & Hhigh & Hlow).
  cbn zeta in Hcharges, Htags, Hhigh, Hlow.
  subst tagged high low. unfold create_value_segments.
  cbn [fst nleb Q_number]. fold m.
  set (xs := map charge_column df) in *.
  assert (Hxs : xs ≠ []) by (unfold xs; by destruct df).
  assert (Hlen : length df = length xs) by (unfold xs; by rewrite length_map).
  destruct (series_median_upper_middle xs Hxs) as (v & Hv & Hmv).
  fold m in Hmv.
  pose proof (sorted_count_below m _ _ _ (sort_values_Q xs) Hv Hmv) as Hbelow.
  rewrite (filter_length_perm _ _ _ (sort_values_perm xs)) in Hbelow.
  pose proof (filter_length_split (fun x => Qle_bool m x) xs) as Hsplit.
  pose proof (Nat.div_mod_eq (length xs) 2) as Hdiv.
  assert (Hn : (0 < length xs)%nat) by (destruct xs; [done|simpl; lia]).
  split; [done|]. split; [done|]. split; [lia|]. split; [lia|].
  intros E. rewrite E in Hhigh. simpl in Hhigh. lia.
Qed.

(** ** The further properties on the scenario *)

Lemma segment_sweep_is_base_sweep_at_segment_clv_witness :
  (segment_threshold_analysis Scenario.y_true Scenario.y_proba_q (2400 # 1)%Q
     0%nat (Some []) [Scenario.cost_matrix_q]).2
  = threshold_sweep Scenario.y_true Scenario.y_proba_q
      (<["CLV" := (2400 # 1)%Q]> Scenario.cost_matrix_q)
      default_start default_end default_step.
Proof.
  apply (segment_sweep_is_base_sweep_at_segment_clv
           [Scenario.cost_matrix_q] 0%nat Scenario.cost_matrix_q
           (2400 # 1)%Q (1 # 4)%Q (50 # 1)%Q); reflexivity.
Defined.

Lemma segment_cost_matrix_is_get_cost_matrix_witness :
  ∃ (h' : heap Q) (seg : ref),
    segment_cost_matrix (2400 # 1)%Q 0%nat [Scenario.cost_matrix_q] = (h', Ok seg) ∧
    h' !! seg = Some (get_cost_matrix (2400 # 1)%Q (50 # 1)%Q (1 # 4)%Q).
Proof.
  apply (segment_cost_matrix_is_get_cost_matrix
           [Scenario.cost_matrix_q] 0%nat (1200 # 1)%Q (50 # 1)%Q (1 # 4)%Q
           (2400 # 1)%Q).
  reflexivity.
Defined.

Lemma segment_cost_matrix_missing_entry_witness :
  ∃ h' : heap Q,
    segment_cost_matrix (2400 # 1)%Q 0%nat
      [delete "RETENTION_COST" Scenario.cost_matrix_q]
    = (h', Raise (KeyError "RETENTION_COST")) ∧
    h' !! 0%nat = Some (delete "RETENTION_COST" Scenario.cost_matrix_q).
Proof.
  destruct (segment_cost_matrix_missing_entry
              [delete "RETENTION_COST" Scenario.cost_matrix_q] 0%nat
              (delete "RETENTION_COST" Scenario.cost_matrix_q)
              (2400 # 1)%Q "RETENTION_COST")
    as (h' & Hrun & _ & Hframe).
  - reflexivity.
  - right. split; [eexists; reflexivity|]. split; reflexivity.
  - exists h'. split; [exact Hrun|]. by apply Hframe.
Defined.

Lemma scenario_labels_binary : Forall (fun y => y = 0 ∨ y = 1) Scenario.y_true.
Proof. unfold Scenario.y_true. repeat (constructor; [lia|]). constructor. Qed.

Lemma actual_class_totals_witness :
  let r := Population.record_at (1 # 2) in
  TP r + FN r = 3 ∧ FP r + TN r = 2.
Proof.
  apply (actual_class_totals Scenario.y_true Scenario.y_proba_q (1 # 2)%Q
           Scenario.cost_matrix_q (Population.record_at (1 # 2))).
  - apply scenario_labels_binary.
  - vm_compute. reflexivity.
Defined.

Lemma fewer_contacts_at_higher_threshold_witness :
  let r1 := Population.record_at (3 # 10) in
  let r2 := Population.record_at (7 # 10) in
  Customers_Contacted r2 ≤ Customers_Contacted r1 ∧
  TP r2 ≤ TP r1 ∧ FP r2 ≤ FP r1 ∧ FN r1 ≤ FN r2 ∧ TN r1 ≤ TN r2.
Proof.
  apply (fewer_contacts_at_higher_threshold Scenario.y_true Scenario.y_proba_q
           (3 # 10)%Q (7 # 10)%Q Scenario.cost_matrix_q).
  - apply scenario_labels_binary.
  - reflexivity.
  - vm_compute. reflexivity.
  - vm_compute. reflexivity.
Defined.

Lemma empty_grid_sweep_witness :
  threshold_sweep [1; 0; 1] Scenario.y_proba_q ∅ (9 # 10)%Q (1 # 10)%Q (1 # 20)%Q
  = Ok [] ∧
  (table ← threshold_sweep [1; 0; 1] Scenario.y_proba_q ∅
             (9 # 10)%Q (1 # 10)%Q (1 # 20)%Q;
   find_optimal_threshold table "Net_ROI") = Raise (KeyError "Net_ROI").
Proof.
  apply (empty_grid_sweep [1; 0; 1] Scenario.y_proba_q ∅
           (9 # 10)%Q (1 # 10)%Q (1 # 20)%Q).
  - reflexivity.
  - vm_compute. discriminate.
Defined.

Lemma sweep_contacts_never_increase_witness :
  ∃ ri rj,
    Population.sweep_q !! 1%nat = Some ri ∧
    Population.sweep_q !! 12%nat = Some rj ∧
    Customers_Contacted rj ≤ Customers_Contacted ri ∧
    TP rj ≤ TP ri ∧ FP rj ≤ FP ri.
Proof.
  assert (Hi : is_Some (Population.sweep_q !! 1%nat))
    by (apply lookup_lt_is_Some; vm_compute; lia).
  assert (Hj : is_Some (Population.sweep_q !! 12%nat))
    by (apply lookup_lt_is_Some; vm_compute; lia).
  destruct Hi as [ri Hi]. destruct Hj as [rj Hj].
  exists ri, rj. split; [exact Hi|]. split; [exact Hj|].
  apply (sweep_contacts_never_increase Scenario.y_true Scenario.y_proba_q
           Scenario.cost_matrix_q (1 # 10)%Q (95 # 100)%Q (5 # 100)%Q
           Population.sweep_q 1%nat 12%nat ri rj).
  - reflexivity.
  - apply scenario_labels_binary.
  - vm_compute. reflexivity.
  - lia.
  - exact Hi.
  - exact Hj.
Defined.

Lemma precision_recall_bounds_witness :
  let r := Population.record_at (7 # 10) in
  (0 <= Precision r <= 1)%Q ∧ (0 <= Recall r <= 1)%Q.
Proof.
  apply (precision_recall_bounds Scenario.y_true Scenario.y_proba_q (7 # 10)%Q
           Scenario.cost_matrix_q (Population.record_at (7 # 10))).
  vm_compute. reflexivity.
Defined.

Lemma net_roi_by_matrix_values_witness :
  let r := Population.record_at (3 # 10) in
  ∃ tp_value fp_value fn_value tn_value : Q,
    Scenario.cost_matrix_q !! "TP" = Some tp_value ∧
    Scenario.cost_matrix_q !! "FP" = Some fp_value ∧
    Scenario.cost_matrix_q !! "FN" = Some fn_value ∧
    Scenario.cost_matrix_q !! "TN" = Some tn_value ∧
    (Net_ROI r == inject_Z (TP r) * tp_value + inject_Z (FP r) * fp_value)%Q ∧
    (Opportunity_Cost r == - (inject_Z (FN r) * fn_value))%Q ∧
    (Net_ROI r - Opportunity_Cost r
     == inject_Z (TP r) * tp_value + inject_Z (FP r) * fp_value
        + inject_Z (FN r) * fn_value + inject_Z (TN r) * tn_value)%Q.
Proof.
  apply (net_roi_by_matrix_values Scenario.y_true Scenario.y_proba_q (3 # 10)%Q
           (1200 # 1)%Q (50 # 1)%Q (1 # 4)%Q (Population.record_at (3 # 10))).
  vm_compute. reflexivity.
Defined.

Lemma recall_and_cost_antitone_witness :
  let r1 := Population.record_at (3 # 10) in
  let r2 := Population.record_at (7 # 10) in
  (Recall r2 <= Recall r1)%Q ∧ (Retention_Cost r2 <= Retention_Cost r1)%Q.
Proof.
  apply (recall_and_cost_antitone Scenario.y_true Scenario.y_proba_q
           (3 # 10)%Q (7 # 10)%Q Scenario.cost_matrix_q (50 # 1)%Q).
  - apply scenario_labels_binary.
  - vm_compute. discriminate.
  - reflexivity.
  - vm_compute. discriminate.
  - vm_compute. reflexivity.
  - vm_compute. reflexivity.
Defined.

Lemma segment_clv_brackets_clv_witness :
  (calculate_segment_clv Population.tagged "Low-Value" 24
   <= calculate_clv Population.df 24)%Q ∧
  (calculate_clv Population.df 24
   <= calculate_segment_clv Population.tagged "High-Value" 24)%Q.
Proof.
  destruct (segment_clv_brackets_clv Population.df 24) as (_ & Hlow & Hhigh & _).
  - vm_compute. discriminate.
  - vm_compute. discriminate.
  - lia.
  - split; [exact Hlow|exact Hhigh].
Defined.

Lemma low_value_at_most_half_witness :
  (2 * length (List.filter
                 (fun c => String.eqb (value_segment c) "Low-Value")
                 Population.tagged)
   ≤ length Population.df)%nat.
Proof.
  destruct (low_value_at_most_half Population.df MonthlyCharges)
    as (_ & _ & _ & Hhalf & _).
  - vm_compute. discriminate.
  - exact Hhalf.
Defined.
